(** * Job_Mapper: the job discovery pipeline and its five agents

    A shallow embedding of [backend/app/agents] (web_search.py, scraper.py,
    extraction.py, geocoding.py, indexing.py, pipeline.py).

    Conventions of the embedding:
    - a Python [str] is a [string]; a [dict] with string keys and string
      values is a [gmap string string]; [d.get(k, v)] is [dict_get];
    - a call that may raise returns a [result]; [try ... except Exception]
      is a [match] on it; an exception is an instance of [Exception],
      represented by its message, which is what the f-strings of the source
      print;
    - the outside world (search engine, HTTP, language model, geocoder,
      vector index, database, uuid and clock) is a record of functions passed
      to the agent; the position of the item in the batch is an argument, so
      that two calls with equal arguments may answer differently;
    - a Python [float] that is only carried around is a rational [Q];
    - strings are sequences of ASCII characters; [str.lower] and
      [str.strip], which Python defines on all of Unicode, are parameters of
      the code that calls them ([Py.Unicode]), and [Py.ascii_only] is what
      they do on ASCII strings.

    The file has three parts: the agents and the orchestrator, function by
    function; the notions and the sample data the statements use; the
    properties. *)

From Stdlib Require Import Ascii String QArith.
From stdpp Require Import base option list strings gmap.

#[local] Set Warnings "-clear-no-such-hyp".

(** ** Exceptions as values *)

Inductive result (A : Type) : Type :=
  | Ok : A → result A
  | Raise : string → result A.
Arguments Ok {A} _.
Arguments Raise {A} _.

Definition rbind {A B} (r : result A) (k : A → result B) : result B :=
  match r with
  | Ok a => k a
  | Raise e => Raise e
  end.

Notation "'let*' x ':=' r 'in' k" := (rbind r (λ x, k))
  (at level 10, x name, r at level 100, k at level 200, only parsing).

(** [try: r except e => h] *)
Definition try_except {A} (r : result A) (h : string → result A) : result A :=
  match r with
  | Ok a => Ok a
  | Raise e => h e
  end.

Definition raised {A} (r : result A) : option string :=
  match r with Ok _ => None | Raise e => Some e end.

(** What a pipeline node stores for a stage: its output, or [[]] when the
    stage raised. *)
Definition output_or_empty {A} (r : result (list A)) : list A :=
  match r with Ok l => l | Raise _ => [] end.

(** ** Python strings *)

Module Py.

(** [not s] for a string [s]. *)
Definition falsy (s : string) : bool :=
  match s with EmptyString => true | String _ _ => false end.

(** [s[:n]] *)
Fixpoint slice_to (n : nat) (s : string) : string :=
  match n, s with
  | S n', String c s' => String c (slice_to n' s')
  | _, _ => EmptyString
  end.

(** [c.lower()] on the ASCII letters; other characters are kept. *)
Definition lower_ascii (c : ascii) : ascii :=
  let n := nat_of_ascii c in
  if (65 <=? n)%nat && (n <=? 90)%nat then ascii_of_nat (n + 32) else c.

(** [s.lower()] for an ASCII string [s]. *)
Fixpoint ascii_lower (s : string) : string :=
  match s with
  | EmptyString => EmptyString
  | String c s' => String (lower_ascii c) (ascii_lower s')
  end.

(** The ASCII characters [str.strip()] removes: tab, line feed, vertical
    tab, form feed, carriage return, the four separators 28..31, and
    space. *)
Definition is_space (c : ascii) : bool :=
  let n := nat_of_ascii c in
  ((9 <=? n)%nat && (n <=? 13)%nat) || ((28 <=? n)%nat && (n <=? 32)%nat).

Fixpoint lstrip (s : string) : string :=
  match s with
  | String c s' => if is_space c then lstrip s' else s
  | EmptyString => EmptyString
  end.

(** [rstrip] drops a character when it is a space and everything after it
    has been dropped too. *)
Fixpoint rstrip (s : string) : string :=
  match s with
  | EmptyString => EmptyString
  | String c s' =>
      match rstrip s' with
      | EmptyString => if is_space c then EmptyString else String c EmptyString
      | t => String c t
      end
  end.

(** [s.strip()] for an ASCII string [s]. *)
Definition ascii_strip (s : string) : string := rstrip (lstrip s).

(** [s.lower()] and [s.strip()] follow the Unicode character database (case
    mappings, white space), which is not part of this development: the code
    that calls them takes the two methods from a record of this type. *)
Record Unicode := {
  lower : string → string;
  strip : string → string;
}.

(** The two methods on ASCII strings. *)
Definition ascii_only : Unicode :=
  {| lower := ascii_lower; strip := ascii_strip |}.

(** [s.startswith(p)] *)
Fixpoint startswith (p s : string) : bool :=
  match p, s with
  | EmptyString, _ => true
  | String a p', String b s' => if Ascii.eqb a b then startswith p' s' else false
  | String _ _, EmptyString => false
  end.

(** [k in s] for strings: [k] occurs in [s] as a contiguous substring. *)
Fixpoint contains (k s : string) : bool :=
  startswith k s ||
  match s with
  | EmptyString => false
  | String _ s' => contains k s'
  end.

(** [d.get(k, v)] *)
Definition dict_get (d : gmap string string) (k v : string) : string :=
  default v (d !! k).

(** [d[k]], a [KeyError] when the key is absent. *)
Definition getitem (d : gmap string string) (k : string) : result string :=
  match d !! k with
  | Some v => Ok v
  | None => Raise ("'" +:+ k +:+ "'")
  end.

End Py.

(** ** Agent 1: WebSearchAgent (web_search.py) *)

Module WebSearch.

Definition DEFAULT_QUERIES : list string :=
  [ "software engineer jobs India hiring 2024";
    "developer jobs Bangalore hiring";
    "tech jobs Mumbai hiring now";
    "remote jobs India software";
    "startup jobs Delhi NCR" ].

(** The search engine: [ddgs_text i q max_results] is what
    [list(ddgs.text(q, region=.., max_results=..))] gives for the [i]-th
    query of the run: a list of result dicts, or an exception. Entering
    and leaving [with DDGS() as ddgs] is outside of any handler of the
    source and is taken to succeed. *)
Definition Ddgs := nat → string → nat → result (list (gmap string string)).

(** The dict appended for one raw result. *)
Definition hit_of (q : string) (r : gmap string string) : gmap string string :=
  <["title" := Py.dict_get r "title" ""]>
  (<["url" := Py.dict_get r "href" ""]>
  (<["snippet" := Py.dict_get r "body" ""]>
  (<["source_query" := q]> ∅))).

(** [queries = [query] if query else self.DEFAULT_QUERIES[:2]] *)
Definition queries_of (query : option string) : list string :=
  match query with
  | Some q => if Py.falsy q then take 2 DEFAULT_QUERIES else [q]
  | None => take 2 DEFAULT_QUERIES
  end.

(** The loop over the queries, from query number [i], with [results] the
    list accumulated so far. A query whose search raises adds nothing. *)
Fixpoint accumulate (ddgs : Ddgs) (max_results : nat) (i : nat)
    (queries : list string) (results : list (gmap string string))
    : list (gmap string string) :=
  match queries with
  | [] => results
  | q :: qs =>
      let results' :=
        match ddgs i q max_results with
        | Ok search_results => results ++ (hit_of q <$> search_results)
        | Raise _ => results
        end in
      accumulate ddgs max_results (S i) qs results'
  end.

(** The loop that removes duplicates, with its two accumulators
    [seen_urls] and [unique_results]. *)
Fixpoint remove_duplicates (results : list (gmap string string))
    (seen_urls : gset string) (unique_results : list (gmap string string))
    : result (list (gmap string string)) :=
  match results with
  | [] => Ok unique_results
  | r :: rs =>
      let* u := Py.getitem r "url" in
      if decide (u ∈ seen_urls)
      then remove_duplicates rs seen_urls unique_results
      else remove_duplicates rs ({[u]} ∪ seen_urls) (unique_results ++ [r])
  end.

Definition run (ddgs : Ddgs) (query : option string) (max_results : nat)
    : result (list (gmap string string)) :=
  let results := accumulate ddgs max_results 0 (queries_of query) [] in
  remove_duplicates results ∅ [].

End WebSearch.

(** ** Agent 2: ScraperAgent (scraper.py) *)

Module Scraper.

(** The web: [http i url] is the outcome of the body of the [try] of
    [_scrape_url] up to [text = soup.get_text(separator, strip=True)] for
    the [i]-th hit: the request with its 15 s timeout, [raise_for_status],
    the parse, the removal of script, style, nav, footer and header
    elements and the flattening to text; or the exception one of them
    raised. *)
Definition Http := nat → string → result string.

Definition _scrape_url (http : Http) (i : nat) (url : string) : option string :=
  match http i url with
  | Ok text => if Py.falsy text then None else Some (Py.slice_to 5000 text)
  | Raise _ => None
  end.

(** The dict appended for a scraped page. *)
Definition page_of (item : gmap string string) (url content : string)
    : gmap string string :=
  <["url" := url]>
  (<["title" := Py.dict_get item "title" ""]>
  (<["snippet" := Py.dict_get item "snippet" ""]>
  (<["content" := content]> ∅))).

(** The body of the [for] loop for the [i]-th hit: the pages it appends. *)
Definition scrape_item (http : Http) (i : nat) (item : gmap string string)
    : list (gmap string string) :=
  let url := Py.dict_get item "url" "" in
  if Py.falsy url then []
  else
    match _scrape_url http i url with
    | Some content =>
        if Py.falsy content then [] else [page_of item url content]
    | None => []
    end.

Fixpoint scrape_loop (http : Http) (i : nat) (items : list (gmap string string))
    (scraped : list (gmap string string)) : list (gmap string string) :=
  match items with
  | [] => scraped
  | item :: rest => scrape_loop http (S i) rest (scraped ++ scrape_item http i item)
  end.

Definition run (http : Http) (urls : list (gmap string string))
    : list (gmap string string) :=
  scrape_loop http 0 (take 10 urls) [].

End Scraper.

(** ** Agent 3: ExtractionAgent (extraction.py) *)

Module Extraction.

Record ExtractedJob := {
  job_title : string;
  company : string;
  location : string;
  apply_url : option string;
  description : option string;
}.

(** The language model: [llm i text] is the outcome of
    [structured_llm.ainvoke(EXTRACTION_PROMPT.format_messages(text=text))]
    for the [i]-th page. *)
Definition Llm := nat → string → result ExtractedJob.

(** [not result.apply_url]: [None] or the empty string. *)
Definition no_url (u : option string) : bool :=
  match u with
  | None => true
  | Some s => Py.falsy s
  end.

Definition with_apply_url (job : ExtractedJob) (u : string) : ExtractedJob :=
  {| job_title := job_title job; company := company job;
     location := location job; apply_url := Some u;
     description := description job |}.

(** The body of the [for] loop of [run] for the [i]-th page. *)
Definition extract_item (llm : Llm) (i : nat) (item : gmap string string)
    : list ExtractedJob :=
  let content := Py.dict_get item "content" "" in
  if Py.falsy content then []
  else
    match llm i (Py.slice_to 3000 content) with
    | Ok result =>
        let result :=
          if no_url (apply_url result)
          then with_apply_url result (Py.dict_get item "url" "")
          else result in
        [result]
    | Raise _ => []
    end.

Fixpoint extract_loop (llm : Llm) (i : nat) (items : list (gmap string string))
    (extracted_jobs : list ExtractedJob) : list ExtractedJob :=
  match items with
  | [] => extracted_jobs
  | item :: rest =>
      extract_loop llm (S i) rest (extracted_jobs ++ extract_item llm i item)
  end.

Definition mock_job (item : gmap string string) : ExtractedJob :=
  {| job_title := Py.dict_get item "title" "Software Engineer";
     company := "Unknown Company";
     location := "India";
     apply_url := Some (Py.dict_get item "url" "");
     description := Some (Py.slice_to 200 (Py.dict_get item "snippet" "")) |}.

Fixpoint _mock_extract (scraped_content : list (gmap string string))
    (jobs : list ExtractedJob) : list ExtractedJob :=
  match scraped_content with
  | [] => jobs
  | item :: rest => _mock_extract rest (jobs ++ [mock_job item])
  end.

(** [self.llm] is [None] when no OpenAI key is configured. *)
Definition run (llm : option Llm) (scraped_content : list (gmap string string))
    : list ExtractedJob :=
  match llm with
  | None => _mock_extract scraped_content []
  | Some f => extract_loop f 0 scraped_content []
  end.

End Extraction.

(** ** Agent 4: GeocodingAgent (geocoding.py) *)

Module Geocoding.

Record GeocodedJob := {
  job_title : string;
  company : string;
  location : string;
  apply_url : option string;
  description : option string;
  lat : Q;
  lng : Q;
}.

(** India center. *)
Definition DEFAULT_CENTER : Q * Q := (20.5937, 78.9629)%Q.

(** The dict [CITY_CACHE], in the order its items are iterated. *)
Definition CITY_CACHE : list (string * (Q * Q)) :=
  [ ("bangalore", (12.9716, 77.5946)%Q);
    ("bengaluru", (12.9716, 77.5946)%Q);
    ("mumbai", (19.0760, 72.8777)%Q);
    ("delhi", (28.6139, 77.2090)%Q);
    ("new delhi", (28.6139, 77.2090)%Q);
    ("hyderabad", (17.3850, 78.4867)%Q);
    ("chennai", (13.0827, 80.2707)%Q);
    ("pune", (18.5204, 73.8567)%Q);
    ("kolkata", (22.5726, 88.3639)%Q);
    ("gurgaon", (28.4595, 77.0266)%Q);
    ("gurugram", (28.4595, 77.0266)%Q);
    ("noida", (28.5355, 77.3910)%Q);
    ("ahmedabad", (23.0225, 72.5714)%Q);
    ("jaipur", (26.9124, 75.7873)%Q);
    ("remote", (20.5937, 78.9629)%Q);
    ("india", (20.5937, 78.9629)%Q) ].

(** The two exception classes of geopy that [_geocode_location] catches,
    with the message of the exception. *)
Inductive GeocoderError :=
  | GeocoderTimedOut (msg : string)
  | GeocoderServiceError (msg : string).

(** What [self.geolocator.geocode(query, timeout=10)] answers: a location,
    [None], one of the two errors above, or an exception of any other
    class, given by its message. *)
Inductive Lookup :=
  | Location (latitude longitude : Q)
  | NoLocation
  | Failed (e : GeocoderError)
  | OtherException (msg : string).

(** The geocoding service: [geocode i query] for the [i]-th job. *)
Definition Nominatim := nat → string → Lookup.

(** What the agent does to the outside: the one second sleep and the
    lookup itself. *)
Inductive Effect :=
  | Sleep (seconds : nat)
  | Geocode (query : string).

(** [for key, coords in self.CITY_CACHE.items(): if key in location_lower:
    return coords] *)
Fixpoint cache_lookup (cache : list (string * (Q * Q))) (location_lower : string)
    : option (Q * Q) :=
  match cache with
  | [] => None
  | (key, coords) :: rest =>
      if Py.contains key location_lower then Some coords
      else cache_lookup rest location_lower
  end.

(** [_geocode_location]: the coordinates, or the exception that leaves the
    function, and what has been done to the outside. The [except] clause
    names the two classes of geopy only: any other exception of the lookup
    passes through it. *)
Definition _geocode_location (unicode : Py.Unicode) (geocode : Nominatim)
    (i : nat) (location : string) : result (Q * Q) * list Effect :=
  if Py.falsy location then (Ok DEFAULT_CENTER, [])
  else
    let location_lower := Py.strip unicode (Py.lower unicode location) in
    match cache_lookup CITY_CACHE location_lower with
    | Some coords => (Ok coords, [])
    | None =>
        let query := location +:+ ", India" in
        let effects := [Sleep 1; Geocode query] in
        match geocode i query with
        | Location latitude longitude => (Ok (latitude, longitude), effects)
        | NoLocation => (Ok DEFAULT_CENTER, effects)
        | Failed (GeocoderTimedOut _) => (Ok DEFAULT_CENTER, effects)
        | Failed (GeocoderServiceError _) => (Ok DEFAULT_CENTER, effects)
        | OtherException msg => (Raise msg, effects)
        end
    end.

Definition geocoded (job : Extraction.ExtractedJob) (coords : Q * Q) : GeocodedJob :=
  {| job_title := Extraction.job_title job;
     company := Extraction.company job;
     location := Extraction.location job;
     apply_url := Extraction.apply_url job;
     description := Extraction.description job;
     lat := fst coords;
     lng := snd coords |}.

(** The loop of [run], from job number [i], with the jobs geocoded so far
    and the effects performed so far. An exception that leaves
    [_geocode_location] leaves the loop and [run]. *)
Fixpoint geocode_loop (unicode : Py.Unicode) (geocode : Nominatim) (i : nat)
    (extracted_jobs : list Extraction.ExtractedJob)
    (geocoded_jobs : list GeocodedJob) (effects : list Effect)
    : result (list GeocodedJob) * list Effect :=
  match extracted_jobs with
  | [] => (Ok geocoded_jobs, effects)
  | job :: rest =>
      match _geocode_location unicode geocode i (Extraction.location job) with
      | (Ok coords, effs) =>
          geocode_loop unicode geocode (S i) rest
            (geocoded_jobs ++ [geocoded job coords]) (effects ++ effs)
      | (Raise e, effs) => (Raise e, effects ++ effs)
      end
  end.

Definition run (unicode : Py.Unicode) (geocode : Nominatim)
    (extracted_jobs : list Extraction.ExtractedJob)
    : result (list GeocodedJob) * list Effect :=
  geocode_loop unicode geocode 0 extracted_jobs [] [].

End Geocoding.

(** ** Agent 5: IndexingAgent (indexing.py) *)

Module Indexing.

(** A row of the table [job_postings] (db_models.py), as [run] fills it. A
    timestamp is carried as its ISO text. *)
Record JobPostingDB := {
  id : string;
  job_title : string;
  company : string;
  location : string;
  apply_url : string;
  lat : Q;
  lng : Q;
  text : option string;
  source : option string;
  scraped_at : option string;
  embedding_id : option string;
}.

(** The dict appended to [indexed] for a job. *)
Record IndexedJob := {
  indexed_id : string;
  indexed_job_title : string;
  indexed_company : string;
  indexed_location : string;
  indexed_lat : Q;
  indexed_lng : Q;
  indexed_at : string;
}.

(** The argument of [pinecone_index.upsert]. *)
Record Vector := {
  vector_id : string;
  values : list Q;
  metadata : gmap string string;
}.

(** The two handles [__init__] sets when both API keys are configured;
    each call names the position of the job in the batch. *)
Record IndexingAgent := {
  pinecone_index : option (nat → Vector → result unit);
  embeddings : option (nat → string → result (list Q));
}.

(** The rest of the outside world of [run]: [uuid4 i] is the identifier
    drawn for the [i]-th job, [utcnow k] the [k]-th reading of the clock,
    [db_add i row] and [db_commit rows] say whether [db.add] and
    [db.commit] raise. Opening the session, [db.rollback()] and
    [db.close()] are the calls the source leaves outside of any handler;
    they are taken to succeed. *)
Record World := {
  uuid4 : nat → string;
  utcnow : nat → string;
  db_add : nat → JobPostingDB → result unit;
  db_commit : list JobPostingDB → result unit;
}.

(** The calls made on the session, in order. *)
Inductive SessionOp :=
  | Add (row : JobPostingDB)
  | Commit
  | Rollback
  | Close.

(** The state [run] works on: the list [indexed] it returns, the rows
    pending in the session, the rows durably in the table, the vectors
    stored in the index, and the calls made on the session. *)
Record State := {
  indexed : list IndexedJob;
  pending : list JobPostingDB;
  table : list JobPostingDB;
  vectors : list Vector;
  session_ops : list SessionOp;
}.

Definition initial (rows : list JobPostingDB) : State :=
  {| indexed := []; pending := []; table := rows; vectors := [];
     session_ops := [] |}.

(** [job.description or ''] and [job.apply_url or ''] *)
Definition or_empty (o : option string) : string :=
  match o with
  | Some s => s
  | None => ""
  end.

Definition text_to_embed (job : Geocoding.GeocodedJob) : string :=
  Geocoding.job_title job +:+ " at " +:+ Geocoding.company job +:+ ". "
    +:+ or_empty (Geocoding.description job).

Definition vector_of (job_id : string) (embedding : list Q)
    (job : Geocoding.GeocodedJob) : Vector :=
  {| vector_id := job_id;
     values := embedding;
     metadata :=
       <["job_title" := Geocoding.job_title job]>
       (<["company" := Geocoding.company job]>
       (<["location" := Geocoding.location job]>
       (<["apply_url" := or_empty (Geocoding.apply_url job)]> ∅))) |}.

(** The inner [try] of the loop: embed, upsert, and on success the
    embedding id is the job id; any exception leaves it [None]. The second
    component is the vector stored, if any. *)
Definition embed (a : IndexingAgent) (i : nat) (job_id : string)
    (job : Geocoding.GeocodedJob) : option string * list Vector :=
  match pinecone_index a, embeddings a with
  | Some upsert, Some aembed_query =>
      match aembed_query i (text_to_embed job) with
      | Ok embedding =>
          let v := vector_of job_id embedding job in
          match upsert i v with
          | Ok _ => (Some job_id, [v])
          | Raise _ => (None, [])
          end
      | Raise _ => (None, [])
      end
  | _, _ => (None, [])
  end.

Definition row_of (w : World) (i : nat) (job_id : string)
    (embedding_id : option string) (job : Geocoding.GeocodedJob) : JobPostingDB :=
  {| id := job_id;
     job_title := Geocoding.job_title job;
     company := Geocoding.company job;
     location := Geocoding.location job;
     apply_url := or_empty (Geocoding.apply_url job);
     lat := Geocoding.lat job;
     lng := Geocoding.lng job;
     text := Geocoding.description job;
     source := Some "pipeline";
     scraped_at := Some (utcnow w (2 * i));
     embedding_id := embedding_id |}.

Definition record_of (w : World) (i : nat) (job_id : string)
    (job : Geocoding.GeocodedJob) : IndexedJob :=
  {| indexed_id := job_id;
     indexed_job_title := Geocoding.job_title job;
     indexed_company := Geocoding.company job;
     indexed_location := Geocoding.location job;
     indexed_lat := Geocoding.lat job;
     indexed_lng := Geocoding.lng job;
     indexed_at := utcnow w (2 * i + 1) |}.

(** The [for] loop inside the outer [try], from job number [i]. It stops at
    the first exception, which it hands back with the state reached. *)
Fixpoint index_loop (a : IndexingAgent) (w : World) (i : nat)
    (jobs : list Geocoding.GeocodedJob) (st : State) : State * option string :=
  match jobs with
  | [] => (st, None)
  | job :: rest =>
      let job_id := uuid4 w i in
      let '(embedding_id, stored) := embed a i job_id job in
      let db_job := row_of w i job_id embedding_id job in
      let st :=
        {| indexed := indexed st; pending := pending st; table := table st;
           vectors := vectors st ++ stored;
           session_ops := session_ops st ++ [Add db_job] |} in
      match db_add w i db_job with
      | Raise e => (st, Some e)
      | Ok _ =>
          index_loop a w (S i) rest
            {| indexed := indexed st ++ [record_of w i job_id job];
               pending := pending st ++ [db_job];
               table := table st;
               vectors := vectors st;
               session_ops := session_ops st |}
      end
  end.

(** [db.commit()]: the pending rows become durable, or the call raises. *)
Definition commit (w : World) (st : State) : State * option string :=
  let ops := session_ops st ++ [Commit] in
  match db_commit w (pending st) with
  | Ok _ =>
      ({| indexed := indexed st; pending := []; table := table st ++ pending st;
          vectors := vectors st; session_ops := ops |}, None)
  | Raise e =>
      ({| indexed := indexed st; pending := pending st; table := table st;
          vectors := vectors st; session_ops := ops |}, Some e)
  end.

(** [db.rollback()]: the pending rows are discarded. *)
Definition rollback (st : State) : State :=
  {| indexed := indexed st; pending := []; table := table st;
     vectors := vectors st; session_ops := session_ops st ++ [Rollback] |}.

(** [db.close()] *)
Definition close (st : State) : State :=
  {| indexed := indexed st; pending := []; table := table st;
     vectors := vectors st; session_ops := session_ops st ++ [Close] |}.

(** The outer [try] of [run]: the loop, then the commit. *)
Definition try_body (a : IndexingAgent) (w : World)
    (jobs : list Geocoding.GeocodedJob) (st : State) : State * option string :=
  match index_loop a w 0 jobs st with
  | (st, None) => commit w st
  | (st, Some e) => (st, Some e)
  end.

(** [run], started on a table holding [rows]: the state it ends in; the
    list it returns is [indexed] of that state. *)
Definition run_state (a : IndexingAgent) (w : World) (rows : list JobPostingDB)
    (geocoded_jobs : list Geocoding.GeocodedJob) : State :=
  match try_body a w geocoded_jobs (initial rows) with
  | (st, None) => close st
  | (st, Some _) => close (rollback st)
  end.

Definition run (a : IndexingAgent) (w : World) (rows : list JobPostingDB)
    (geocoded_jobs : list Geocoding.GeocodedJob) : list IndexedJob :=
  indexed (run_state a w rows geocoded_jobs).

(** Whether the outer [try] raised. *)
Definition failure (a : IndexingAgent) (w : World) (rows : list JobPostingDB)
    (geocoded_jobs : list Geocoding.GeocodedJob) : option string :=
  snd (try_body a w geocoded_jobs (initial rows)).

End Indexing.

(** ** The orchestrator: JobDiscoveryPipeline (pipeline.py) *)

Module Pipeline.

Record PipelineState := {
  query : string;
  search_results : list (gmap string string);
  scraped_content : list (gmap string string);
  extracted_jobs : list Extraction.ExtractedJob;
  geocoded_jobs : list Geocoding.GeocodedJob;
  indexed_jobs : list Indexing.IndexedJob;
  error : string;
}.

(** The five agents held by the pipeline, each by its [run]. *)
Record JobDiscoveryPipeline := {
  web_search : option string → nat → result (list (gmap string string));
  scraper : list (gmap string string) → result (list (gmap string string));
  extraction : list (gmap string string) → result (list Extraction.ExtractedJob);
  geocoding : list Extraction.ExtractedJob → result (list Geocoding.GeocodedJob);
  indexing : list Geocoding.GeocodedJob → result (list Indexing.IndexedJob);
}.

Definition set_error (e : string) (st : PipelineState) : PipelineState :=
  {| query := query st; search_results := search_results st;
     scraped_content := scraped_content st; extracted_jobs := extracted_jobs st;
     geocoded_jobs := geocoded_jobs st; indexed_jobs := indexed_jobs st;
     error := e |}.

Definition set_search_results (l : list (gmap string string)) (st : PipelineState)
    : PipelineState :=
  {| query := query st; search_results := l;
     scraped_content := scraped_content st; extracted_jobs := extracted_jobs st;
     geocoded_jobs := geocoded_jobs st; indexed_jobs := indexed_jobs st;
     error := error st |}.

Definition set_scraped_content (l : list (gmap string string)) (st : PipelineState)
    : PipelineState :=
  {| query := query st; search_results := search_results st;
     scraped_content := l; extracted_jobs := extracted_jobs st;
     geocoded_jobs := geocoded_jobs st; indexed_jobs := indexed_jobs st;
     error := error st |}.

Definition set_extracted_jobs (l : list Extraction.ExtractedJob) (st : PipelineState)
    : PipelineState :=
  {| query := query st; search_results := search_results st;
     scraped_content := scraped_content st; extracted_jobs := l;
     geocoded_jobs := geocoded_jobs st; indexed_jobs := indexed_jobs st;
     error := error st |}.

Definition set_geocoded_jobs (l : list Geocoding.GeocodedJob) (st : PipelineState)
    : PipelineState :=
  {| query := query st; search_results := search_results st;
     scraped_content := scraped_content st; extracted_jobs := extracted_jobs st;
     geocoded_jobs := l; indexed_jobs := indexed_jobs st;
     error := error st |}.

Definition set_indexed_jobs (l : list Indexing.IndexedJob) (st : PipelineState)
    : PipelineState :=
  {| query := query st; search_results := search_results st;
     scraped_content := scraped_content st; extracted_jobs := extracted_jobs st;
     geocoded_jobs := geocoded_jobs st; indexed_jobs := l;
     error := error st |}.

Definition _search_node (p : JobDiscoveryPipeline) (state : PipelineState)
    : result PipelineState :=
  try_except
    (let* results := web_search p (Some (query state)) 10 in
     Ok (set_search_results results state))
    (λ e, Ok (set_search_results [] (set_error ("Search error: " +:+ e) state))).

Definition _scrape_node (p : JobDiscoveryPipeline) (state : PipelineState)
    : result PipelineState :=
  try_except
    (let* results := scraper p (search_results state) in
     Ok (set_scraped_content results state))
    (λ e, Ok (set_scraped_content [] (set_error ("Scrape error: " +:+ e) state))).

Definition _extract_node (p : JobDiscoveryPipeline) (state : PipelineState)
    : result PipelineState :=
  try_except
    (let* results := extraction p (scraped_content state) in
     Ok (set_extracted_jobs results state))
    (λ e, Ok (set_extracted_jobs [] (set_error ("Extraction error: " +:+ e) state))).

Definition _geocode_node (p : JobDiscoveryPipeline) (state : PipelineState)
    : result PipelineState :=
  try_except
    (let* results := geocoding p (extracted_jobs state) in
     Ok (set_geocoded_jobs results state))
    (λ e, Ok (set_geocoded_jobs [] (set_error ("Geocoding error: " +:+ e) state))).

Definition _index_node (p : JobDiscoveryPipeline) (state : PipelineState)
    : result PipelineState :=
  try_except
    (let* results := indexing p (geocoded_jobs state) in
     Ok (set_indexed_jobs results state))
    (λ e, Ok (set_indexed_jobs [] (set_error ("Indexing error: " +:+ e) state))).

(** The compiled graph: entry point [search], then the edges
    search, scrape, extract, geocode, index, END. *)
Definition ainvoke (p : JobDiscoveryPipeline) (state : PipelineState)
    : result PipelineState :=
  let* state := _search_node p state in
  let* state := _scrape_node p state in
  let* state := _extract_node p state in
  let* state := _geocode_node p state in
  _index_node p state.

(** [query or ""] *)
Definition query_or_empty (query : option string) : string :=
  match query with
  | Some q => q
  | None => ""
  end.

Definition initial_state (query : option string) : PipelineState :=
  {| query := query_or_empty query; search_results := [];
     scraped_content := []; extracted_jobs := []; geocoded_jobs := [];
     indexed_jobs := []; error := "" |}.

Definition run (p : JobDiscoveryPipeline) (query : option string)
    : result PipelineState :=
  ainvoke p (initial_state query).

(** The outside world of a whole run. *)
Record Environment := {
  ddgs : WebSearch.Ddgs;
  http : Scraper.Http;
  llm : option Extraction.Llm;
  unicode : Py.Unicode;
  geocode : Geocoding.Nominatim;
  indexer : Indexing.IndexingAgent;
  world : Indexing.World;
  rows : list Indexing.JobPostingDB;
}.

(** [JobDiscoveryPipeline()]: the pipeline over the five agents of the
    repository. The agents that are total functions above return normally;
    the geocoder raises what a lookup raises past its handler. *)
Definition make (env : Environment) : JobDiscoveryPipeline :=
  {| web_search := WebSearch.run (ddgs env);
     scraper := λ urls, Ok (Scraper.run (http env) urls);
     extraction := λ pages, Ok (Extraction.run (llm env) pages);
     geocoding := λ jobs, fst (Geocoding.run (unicode env) (geocode env) jobs);
     indexing := λ jobs, Ok (Indexing.run (indexer env) (world env) (rows env) jobs) |}.

End Pipeline.

(** * Notions used in the statements, and sample data *)

(** ** WebSearchAgent: removal of duplicate urls *)

Module WebSearchSpec.
Import WebSearch.

(** The url of a hit, as the later stages read it. *)
Definition url_of (r : gmap string string) : string := Py.dict_get r "url" "".

(** The hits kept by the loop, as a function of the urls already seen. *)
Fixpoint fresh (seen : gset string) (rs : list (gmap string string))
    : list (gmap string string) :=
  match rs with
  | [] => []
  | r :: rs' =>
      if decide (url_of r ∈ seen) then fresh seen rs'
      else r :: fresh ({[url_of r]} ∪ seen) rs'
  end.

(** A raw result of the search engine. *)
Definition raw (href : string) : gmap string string := {[ "href" := href ]}.

(** Sample: the two default queries both return [a.com], the second one
    also [b.com]. *)
Definition two_queries : Ddgs := λ i q _,
  match i with
  | 0 => Ok [raw "a.com"]
  | 1 => Ok [raw "a.com"; raw "b.com"]
  | _ => Raise "no more queries"
  end.

End WebSearchSpec.

(** ** ScraperAgent: the pages it emits *)

Module ScraperSpec.
Import Scraper.

(** Sample: three hits; the first has no url, the fetch of the second
    fails, the third is fetched. *)
Definition three_hits : list (gmap string string) :=
  [ {[ "title" := "no url" ]};
    {[ "url" := "https://down.example" ]};
    {[ "url" := "https://jobs.example" ]} ].

Definition one_site : Http := λ _ url,
  if String.eqb url "https://jobs.example" then Ok "Engineer wanted"
  else Raise "503 Server Error".

Definition the_page : gmap string string :=
  page_of {[ "url" := "https://jobs.example" ]} "https://jobs.example"
    "Engineer wanted".

End ScraperSpec.

(** ** ExtractionAgent: the two strategies *)

Module ExtractionSpec.
Import Extraction.

(** Sample: a page scraped with an empty title, as the scraper writes it
    for a hit without title. *)
Definition untitled_page : gmap string string :=
  <["url" := "https://jobs.example/1"]>
  (<["title" := ""]>
  (<["snippet" := ""]>
  (<["content" := "We are hiring"]> ∅))).

(** Sample: a model that answers with an empty title and company. *)
Definition terse_model : Llm := λ _ _,
  Ok {| job_title := ""; company := ""; location := "Remote";
        apply_url := None; description := None |}.

(** Sample: a page without a [content] key. *)
Definition page_without_content : gmap string string :=
  <["url" := "https://jobs.example/2"]>
  (<["title" := "Data Engineer"]> ∅).

End ExtractionSpec.

(** ** GeocodingAgent: the city table and the batch *)

Module GeocodingSpec.
Import Geocoding.

(** Sample: a geocoding service that is down. *)
Definition service_down : Nominatim := λ _ _,
  Failed (GeocoderServiceError "Service not available").

(** Sample: a lookup that raises an exception of another class than the
    two that are caught. *)
Definition lookup_raises : Nominatim := λ _ _,
  OtherException "lookup failed".

(** The fields a geocoded job shares with the extracted job. *)
Definition extracted (g : GeocodedJob) : Extraction.ExtractedJob :=
  {| Extraction.job_title := job_title g;
     Extraction.company := company g;
     Extraction.location := location g;
     Extraction.apply_url := apply_url g;
     Extraction.description := description g |}.

(** Sample: a job at a given location. *)
Definition job_in (location : string) : Extraction.ExtractedJob :=
  {| Extraction.job_title := "Developer"; Extraction.company := "Test Corp";
     Extraction.location := location; Extraction.apply_url := None;
     Extraction.description := None |}.

End GeocodingSpec.

(** ** IndexingAgent: one transaction per batch *)

Module IndexingSpec.
Import Indexing.

(** The row and the record [run] builds for the [i]-th job of a batch. *)
Definition job_row (a : IndexingAgent) (w : World) (i : nat)
    (job : Geocoding.GeocodedJob) : JobPostingDB :=
  row_of w i (uuid4 w i) (embed a i (uuid4 w i) job).1 job.

Definition job_record (w : World) (i : nat) (job : Geocoding.GeocodedJob)
    : IndexedJob :=
  record_of w i (uuid4 w i) job.

Definition batch_rows (a : IndexingAgent) (w : World)
    (jobs : list Geocoding.GeocodedJob) : list JobPostingDB :=
  imap (job_row a w) jobs.

Definition batch_records (w : World) (jobs : list Geocoding.GeocodedJob)
    : list IndexedJob :=
  imap (job_record w) jobs.

(** Whether the embedding of the [i]-th job is computed and stored. *)
Definition embedded (a : IndexingAgent) (w : World) (i : nat)
    (job : Geocoding.GeocodedJob) : bool :=
  match pinecone_index a, embeddings a with
  | Some upsert, Some aembed_query =>
      match aembed_query i (text_to_embed job) with
      | Ok embedding =>
          match upsert i (vector_of (uuid4 w i) embedding job) with
          | Ok _ => true
          | Raise _ => false
          end
      | Raise _ => false
      end
  | _, _ => false
  end.

(** The number of [db.commit] among the calls made on the session. *)
Fixpoint commits (ops : list SessionOp) : nat :=
  match ops with
  | [] => 0
  | Commit :: ops' => S (commits ops')
  | _ :: ops' => commits ops'
  end.

(** The three ways [run] can go: the state it ends in and the exception
    caught by its outer handler, if any. *)
Inductive Ending (a : IndexingAgent) (w : World) (rows : list JobPostingDB)
    (jobs : list Geocoding.GeocodedJob) (st : State) : option string → Prop :=
  | Committed :
      (∀ k row, batch_rows a w jobs !! k = Some row → db_add w k row = Ok ()) →
      db_commit w (batch_rows a w jobs) = Ok () →
      session_ops st = (Add <$> batch_rows a w jobs) ++ [Commit; Close] →
      table st = rows ++ batch_rows a w jobs →
      indexed st = batch_records w jobs →
      Ending a w rows jobs st None
  | CommitFailed e :
      (∀ k row, batch_rows a w jobs !! k = Some row → db_add w k row = Ok ()) →
      db_commit w (batch_rows a w jobs) = Raise e →
      session_ops st = (Add <$> batch_rows a w jobs) ++ [Commit; Rollback; Close] →
      table st = rows →
      indexed st = batch_records w jobs →
      Ending a w rows jobs st (Some e)
  | AddFailed e k row :
      k < length jobs →
      batch_rows a w jobs !! k = Some row →
      db_add w k row = Raise e →
      session_ops st
      = (Add <$> take (S k) (batch_rows a w jobs)) ++ [Rollback; Close] →
      table st = rows →
      indexed st = take k (batch_records w jobs) →
      Ending a w rows jobs st (Some e).

(** Sample: a geocoded job. *)
Definition job (title : string) : Geocoding.GeocodedJob :=
  {| Geocoding.job_title := title; Geocoding.company := "TechCorp";
     Geocoding.location := "Bangalore";
     Geocoding.apply_url := Some "https://example.com";
     Geocoding.description := None;
     Geocoding.lat := 12.9716; Geocoding.lng := 77.5946 |}.

(** Sample: an agent without vector index. *)
Definition no_vectors : IndexingAgent :=
  {| pinecone_index := None; embeddings := None |}.

(** Sample: identifiers and clock readings, numbered (for fewer than ten
    jobs). *)
Definition numbered (prefix : string) (i : nat) : string :=
  prefix +:+ String (ascii_of_nat (48 + i)) "".

(** Sample: a database whose commit fails. *)
Definition disk_full : World :=
  {| uuid4 := numbered "id-"; utcnow := numbered "t";
     db_add := λ _ _, Ok ();
     db_commit := λ _, Raise "database or disk is full" |}.

(** Sample: the embedding call fails for the second job only. *)
Definition second_embedding_fails : IndexingAgent :=
  {| pinecone_index := Some (λ _ _, Ok ());
     embeddings := Some (λ i _,
       match i with
       | 1 => Raise "Rate limit reached"
       | _ => Ok [0.1%Q; 0.2%Q]
       end) |}.

(** Sample: a database that accepts everything. *)
Definition working_database : World :=
  {| uuid4 := numbered "id-"; utcnow := numbered "t";
     db_add := λ _ _, Ok ();
     db_commit := λ _, Ok () |}.

Definition three_jobs : list Geocoding.GeocodedJob :=
  [job "Developer"; job "Engineer"; job "Analyst"].

Definition three_jobs_state : State :=
  run_state second_embedding_fails working_database [] three_jobs.

End IndexingSpec.

(** ** The orchestrator: failing stages and output counts *)

Module PipelineSpec.
Import Pipeline.

(** The five nodes of the graph. *)
Inductive Stage := Search | Scrape | Extract | Geocode | Index.

(** The name a node puts in front of [" error: "]. *)
Definition stage_name (s : Stage) : string :=
  match s with
  | Search => "Search"
  | Scrape => "Scrape"
  | Extract => "Extraction"
  | Geocode => "Geocoding"
  | Index => "Indexing"
  end.

(** The rank of a stage in the graph. *)
Definition position (s : Stage) : nat :=
  match s with
  | Search => 0
  | Scrape => 1
  | Extract => 2
  | Geocode => 3
  | Index => 4
  end.

(** The exception raised, if any, by the agent of a stage on the input
    that the state holds for it. *)
Definition stage_failure (p : JobDiscoveryPipeline) (st : PipelineState)
    (s : Stage) : option string :=
  match s with
  | Search => raised (web_search p (Some (query st)) 10)
  | Scrape => raised (scraper p (search_results st))
  | Extract => raised (extraction p (scraped_content st))
  | Geocode => raised (geocoding p (extracted_jobs st))
  | Index => raised (indexing p (geocoded_jobs st))
  end.

(** The number of items a stage has put in the state. *)
Definition output_count (st : PipelineState) (s : Stage) : nat :=
  match s with
  | Search => length (search_results st)
  | Scrape => length (scraped_content st)
  | Extract => length (extracted_jobs st)
  | Geocode => length (geocoded_jobs st)
  | Index => length (indexed_jobs st)
  end.

(** Each output of the state is what the agent of the stage returned on
    the output of the stage before, or empty when that agent raised. *)
Definition chained (p : JobDiscoveryPipeline) (st : PipelineState) : Prop :=
  search_results st = output_or_empty (web_search p (Some (query st)) 10)
  ∧ scraped_content st = output_or_empty (scraper p (search_results st))
  ∧ extracted_jobs st = output_or_empty (extraction p (scraped_content st))
  ∧ geocoded_jobs st = output_or_empty (geocoding p (extracted_jobs st))
  ∧ indexed_jobs st = output_or_empty (indexing p (geocoded_jobs st)).

(** The error slot after the five nodes: each stage that raises overwrites
    it. *)
Definition error_after (p : JobDiscoveryPipeline) (st : PipelineState) : string :=
  fold_left
    (λ err s,
       match stage_failure p st s with
       | Some c => stage_name s +:+ " error: " +:+ c
       | None => err
       end)
    [Search; Scrape; Extract; Geocode; Index] "".

(** Sample: an outside world for a whole run. *)
Definition quiet : Environment :=
  {| ddgs := WebSearchSpec.two_queries;
     http := ScraperSpec.one_site;
     llm := None;
     unicode := Py.ascii_only;
     geocode := GeocodingSpec.service_down;
     indexer := IndexingSpec.no_vectors;
     world := IndexingSpec.working_database;
     rows := [] |}.

(** Sample: a scraper that is forced to fail, in front of the agents of
    the repository. *)
Definition scraper_forced_to_fail : JobDiscoveryPipeline :=
  {| web_search := web_search (make quiet);
     scraper := λ _, Raise "connection pool exhausted";
     extraction := extraction (make quiet);
     geocoding := geocoding (make quiet);
     indexing := indexing (make quiet) |}.

(** An agent that never returns more items than it is given. *)
Definition never_more {A B} (agent : list A → result (list B)) : Prop :=
  ∀ l out, agent l = Ok out → length out ≤ length l.

End PipelineSpec.

(** * Further notions and sample data *)

(** ** WebSearchAgent: the hits *)

Module WebSearchMoreSpec.
Import WebSearch.

(** The keys of the dict appended for a hit. *)
Definition HIT_KEYS : gset string :=
  {[ "title"; "url"; "snippet"; "source_query" ]}.

(** Sample: a search engine that is down. *)
Definition engine_down : Ddgs := λ _ _ _, Raise "202 Ratelimit".

End WebSearchMoreSpec.

(** ** ScraperAgent: the pages *)

Module ScraperMoreSpec.
Import Scraper.

(** The keys of the dict appended for a page. *)
Definition PAGE_KEYS : gset string :=
  {[ "url"; "title"; "snippet"; "content" ]}.

(** The web, when nothing is fetched after the tenth hit. *)
Definition first_ten (http : Http) : Http := λ i url,
  if decide (i < 10) then http i url else Raise "not fetched".

End ScraperMoreSpec.

(** ** GeocodingAgent: the calls to the service *)

Module GeocodingMoreSpec.
Import Geocoding.

(** The number of lookups among the effects. *)
Fixpoint lookups (effects : list Effect) : nat :=
  match effects with
  | [] => 0
  | Geocode _ :: rest => S (lookups rest)
  | Sleep _ :: rest => lookups rest
  end.

(** What the agent does to the outside for one job. *)
Definition job_effects (unicode : Py.Unicode) (geocode : Nominatim) (i : nat)
    (job : Extraction.ExtractedJob) : list Effect :=
  (_geocode_location unicode geocode i (Extraction.location job)).2.

(** The geocoded job of one job, or the exception that its lookup lets
    through. *)
Definition job_geocoded (unicode : Py.Unicode) (geocode : Nominatim) (i : nat)
    (job : Extraction.ExtractedJob) : result GeocodedJob :=
  let* coords := (_geocode_location unicode geocode i (Extraction.location job)).1 in
  Ok (geocoded job coords).

(** A location that needs no lookup: empty, or matching the city table. *)
Definition needs_no_lookup (unicode : Py.Unicode) (location : string) : Prop :=
  location = ""
  ∨ is_Some (cache_lookup CITY_CACHE
               (Py.strip unicode (Py.lower unicode location))).

(** Sample: three jobs, in Pune, nowhere, and in Timbuktu. *)
Definition three_places : list Extraction.ExtractedJob :=
  [ GeocodingSpec.job_in "Pune, Maharashtra"; GeocodingSpec.job_in "";
    GeocodingSpec.job_in "Timbuktu" ].

End GeocodingMoreSpec.

(** ** IndexingAgent: identifiers and vectors *)

Module IndexingMoreSpec.
Import Indexing.

(** The embedding id of the row a call on the session adds, if any. *)
Definition added_embedding (op : SessionOp) : option string :=
  match op with
  | Add row => embedding_id row
  | _ => None
  end.

(** A returned record and a row describe the same job under the same
    identifier. *)
Definition same_job (r : IndexedJob) (row : JobPostingDB) : Prop :=
  indexed_id r = id row
  ∧ indexed_job_title r = job_title row
  ∧ indexed_company r = company row
  ∧ indexed_location r = location row
  ∧ indexed_lat r = lat row
  ∧ indexed_lng r = lng row.

(** Sample: a vector index that works, in front of a database whose commit
    fails. *)
Definition all_embedded : IndexingAgent :=
  {| pinecone_index := Some (λ _ _, Ok ());
     embeddings := Some (λ _ _, Ok [0.5%Q]) |}.

End IndexingMoreSpec.

(** ** The orchestrator: several failures *)

Module PipelineMoreSpec.
Import Pipeline.

(** Sample: the search and the indexing are forced to fail. *)
Definition two_stages_fail : JobDiscoveryPipeline :=
  {| web_search := λ _ _, Raise "202 Ratelimit";
     scraper := scraper (make PipelineSpec.quiet);
     extraction := extraction (make PipelineSpec.quiet);
     geocoding := geocoding (make PipelineSpec.quiet);
     indexing := λ _, Raise "database is locked" |}.

(** Sample: every page is fetched, the model places every job in Timbuktu,
    and the lookup raises an exception of another class than the two that
    the geocoder catches. *)
Definition lookup_raises_env : Environment :=
  {| ddgs := ddgs PipelineSpec.quiet;
     http := λ _ _, Ok "Engineer wanted";
     llm := Some (λ _ _, Ok (GeocodingSpec.job_in "Timbuktu"));
     unicode := Py.ascii_only;
     geocode := GeocodingSpec.lookup_raises;
     indexer := indexer PipelineSpec.quiet;
     world := world PipelineSpec.quiet;
     rows := [] |}.

End PipelineMoreSpec.

(** ** Settings (config.py) and the constructors of the agents *)

Module Config.

Record Settings := {
  openai_api_key : string;
  pinecone_api_key : string;
  pinecone_environment : string;
  pinecone_index_name : string;
  use_local_vectordb : bool;
  database_url : string;
}.

(** The values of the fields when the environment sets none. *)
Definition defaults : Settings :=
  {| openai_api_key := "";
     pinecone_api_key := "";
     pinecone_environment := "us-east-1";
     pinecone_index_name := "india-jobs";
     use_local_vectordb := false;
     database_url := "sqlite:///./jobs.db" |}.

End Config.

Module ExtractionInit.
Import Extraction.

(** [ChatOpenAI(model=.., temperature=.., api_key=..)]: the client, or the
    exception its constructor raises. *)
Definition ChatOpenAI := string → Q → string → result Llm.

(** [ExtractionAgent.__init__]: the value of [self.llm]. *)
Definition __init__ (chat_openai : ChatOpenAI) (settings : Config.Settings)
    : result (option Llm) :=
  if Py.falsy (Config.openai_api_key settings) then Ok None
  else
    let* llm := chat_openai "gpt-4o-mini" 0%Q (Config.openai_api_key settings) in
    Ok (Some llm).

End ExtractionInit.

Module IndexingInit.
Import Indexing.

(** The Pinecone client [pc]. *)
Record Pinecone := {
  list_indexes_names : result (list string);
  create_index : string → nat → string → result unit;
  Index : string → result (nat → Vector → result unit);
}.

(** What [_init_pinecone] reaches: the two imports and [Pinecone(api_key)]
    taken together, and [OpenAIEmbeddings(api_key)]. *)
Record Services := {
  connect : string → result Pinecone;
  OpenAIEmbeddings : string → result (nat → string → result (list Q));
}.

(** The calls made on the services, in order. *)
Inductive Call :=
  | Connect (api_key : string)
  | ListIndexes
  | CreateIndex (name : string) (dimension : nat) (metric : string)
  | OpenIndex (name : string)
  | MakeEmbeddings (api_key : string).

(** The handler of [_init_pinecone]: [self.pinecone_index = None]. *)
Definition without_handles (self : IndexingAgent) : IndexingAgent :=
  {| pinecone_index := None; embeddings := embeddings self |}.

Definition _init_pinecone (svc : Services) (settings : Config.Settings)
    (self : IndexingAgent) : IndexingAgent * list Call :=
  let calls := [Connect (Config.pinecone_api_key settings)] in
  match connect svc (Config.pinecone_api_key settings) with
  | Raise _ => (without_handles self, calls)
  | Ok pc =>
      let index_name := Config.pinecone_index_name settings in
      let calls := calls ++ [ListIndexes] in
      match list_indexes_names pc with
      | Raise _ => (without_handles self, calls)
      | Ok names =>
          let '(created, calls) :=
            if decide (index_name ∈ names) then (Ok (), calls)
            else (create_index pc index_name 1536 "cosine",
                  calls ++ [CreateIndex index_name 1536 "cosine"]) in
          match created with
          | Raise _ => (without_handles self, calls)
          | Ok _ =>
              let calls := calls ++ [OpenIndex index_name] in
              match Index pc index_name with
              | Raise _ => (without_handles self, calls)
              | Ok index =>
                  let self :=
                    {| pinecone_index := Some index;
                       embeddings := embeddings self |} in
                  let calls :=
                    calls ++ [MakeEmbeddings (Config.openai_api_key settings)] in
                  match OpenAIEmbeddings svc (Config.openai_api_key settings) with
                  | Raise _ => (without_handles self, calls)
                  | Ok client =>
                      ({| pinecone_index := pinecone_index self;
                          embeddings := Some client |}, calls)
                  end
              end
          end
      end
  end.

(** [IndexingAgent.__init__] *)
Definition __init__ (svc : Services) (settings : Config.Settings)
    : IndexingAgent * list Call :=
  let self := {| pinecone_index := None; embeddings := None |} in
  if Py.falsy (Config.pinecone_api_key settings)
     || Py.falsy (Config.openai_api_key settings)
  then (self, [])
  else _init_pinecone svc settings self.

End IndexingInit.

(** ** The vector store behind the search endpoint (vectorstore.py) *)

Module VectorStore.

Definition EMBEDDING_MODEL : string := "text-embedding-3-small".
Definition EMBEDDING_DIMENSION : nat := 1536.
Definition INDEX_NAME : string := "india-jobs".

(** A value of a metadata dict: a string or a float. *)
Inductive Value :=
  | VStr (s : string)
  | VFloat (x : Q).

(** [JobPosting] and [JobPin] (models.py); a timestamp is carried as its
    ISO text. *)
Record JobPosting := {
  id : option string;
  job_title : string;
  company : string;
  location : string;
  apply_url : string;
  lat : Q;
  lng : Q;
  text : option string;
  source : option string;
  scraped_at : option string;
  embedding_id : option string;
  created_at : option string;
  updated_at : option string;
}.

Record JobPin := {
  pin_id : string;
  company_name : string;
  pin_job_title : string;
  latitude : Q;
  longitude : Q;
  job_url : string;
  location_name : string;
  description : option string;
}.

(** The argument of [index.upsert] and a match of [index.query]; a match
    of a vector stored without metadata has none. *)
Record VectorRecord := {
  vector_id : string;
  values : list Q;
  metadata : gmap string Value;
}.

Record Match := {
  match_id : string;
  score : Q;
  match_metadata : option (gmap string Value);
}.

(** The two clients. The first argument of a call is its number, so that
    two calls with equal arguments may answer differently.
    [embeddings_create i model input] is
    [client.embeddings.create(model=.., input=..).data[0].embedding];
    [query i vector top_k filter] is [index.query(vector=.., top_k=..,
    include_metadata=True, filter=..).matches], where [filter] is [None] or
    the location that [{"location": {"$eq": ..}}] asks for;
    [describe_index_stats] gives the vector count and the dimension. *)
Record OpenAI := {
  embeddings_create : nat → string → string → result (list Q);
}.

Record Index := {
  upsert : nat → VectorRecord → result unit;
  query : nat → list Q → Z → option string → result (list Match);
  describe_index_stats : result (nat * nat);
}.

(** The fields of a [VectorStore] that its methods read. *)
Record VectorStore := {
  index : option Index;
  openai_client : option OpenAI;
}.

(** The calls made on the two clients, in order. *)
Inductive Call :=
  | Embed (model input : string)
  | Upsert (v : VectorRecord)
  | Query (vector : list Q) (top_k : Z) (filter : option string).

Definition generate_embedding (self : VectorStore) (i : nat) (text : string)
    : option (list Q) * list Call :=
  match openai_client self with
  | None => (None, [])
  | Some client =>
      let input := Py.slice_to (8 * 1000) text in
      match embeddings_create client i EMBEDDING_MODEL input with
      | Ok embedding => (Some embedding, [Embed EMBEDDING_MODEL input])
      | Raise _ => (None, [Embed EMBEDDING_MODEL input])
      end
  end.

(** [not embedding]: [None] or an empty list. *)
Definition no_embedding (embedding : option (list Q)) : bool :=
  match embedding with
  | None | Some [] => true
  | Some (_ :: _) => false
  end.

(** [job.text or ''] *)
Definition or_empty (o : option string) : string :=
  match o with
  | Some s => s
  | None => ""
  end.

(** [s or ""] for a string. *)
Definition str_or_empty (s : string) : string :=
  if Py.falsy s then "" else s.

Definition text_to_embed (job : JobPosting) : string :=
  job_title job +:+ " at " +:+ company job +:+ ". Location: " +:+ location job
    +:+ ". " +:+ or_empty (text job).

Definition record_of (job_id : string) (embedding : list Q) (job : JobPosting)
    : VectorRecord :=
  {| vector_id := job_id;
     values := embedding;
     metadata :=
       <["job_title" := VStr (job_title job)]>
       (<["company" := VStr (company job)]>
       (<["location" := VStr (location job)]>
       (<["apply_url" := VStr (str_or_empty (apply_url job))]>
       (<["lat" := VFloat (lat job)]>
       (<["lng" := VFloat (lng job)]>
       (<["text" := VStr (Py.slice_to 1000 (or_empty (text job)))]> ∅)))))) |}.

Definition upsert_job (self : VectorStore) (i : nat) (job_id : string)
    (job : JobPosting) : bool * list Call :=
  match index self with
  | None => (false, [])
  | Some index =>
      let '(embedding, calls) := generate_embedding self i (text_to_embed job) in
      match embedding with
      | None | Some [] => (false, calls)
      | Some (x :: xs) =>
          let v := record_of job_id (x :: xs) job in
          match upsert index i v with
          | Ok _ => (true, calls ++ [Upsert v])
          | Raise _ => (false, calls ++ [Upsert v])
          end
      end
  end.

(** [{"id": match.id, "score": match.score, **match.metadata}]: the
    entries of the metadata come last and win; a match without metadata
    raises a [TypeError]. *)
Definition job_of (m : Match) : result (gmap string Value) :=
  match match_metadata m with
  | Some metadata =>
      Ok (metadata ∪ <["id" := VStr (match_id m)]> (<["score" := VFloat (score m)]> ∅))
  | None => Raise "'NoneType' object is not a mapping"
  end.

(** The loop over [results.matches] inside the [try]. *)
Fixpoint jobs_of (matches : list Match) (jobs : list (gmap string Value))
    : result (list (gmap string Value)) :=
  match matches with
  | [] => Ok jobs
  | m :: rest =>
      let* job := job_of m in
      jobs_of rest (jobs ++ [job])
  end.

(** [if location_filter:] *)
Definition filter_of (location_filter : option string) : option string :=
  match location_filter with
  | Some location => if Py.falsy location then None else Some location
  | None => None
  end.

Definition semantic_search (self : VectorStore) (i : nat) (query_text : string)
    (top_k : Z) (location_filter : option string)
    : list (gmap string Value) * list Call :=
  match index self with
  | None => ([], [])
  | Some index =>
      let '(embedding, calls) := generate_embedding self i query_text in
      match embedding with
      | None | Some [] => ([], calls)
      | Some (x :: xs) =>
          let filter_dict := filter_of location_filter in
          let calls := calls ++ [Query (x :: xs) top_k filter_dict] in
          match (let* matches := query index i (x :: xs) top_k filter_dict in
                 jobs_of matches []) with
          | Ok jobs => (jobs, calls)
          | Raise _ => ([], calls)
          end
      end
  end.

(** The job built for a sample pin. *)
Definition job_of_pin (pin : JobPin) : JobPosting :=
  {| id := Some (pin_id pin);
     job_title := pin_job_title pin;
     company := company_name pin;
     location := location_name pin;
     apply_url := job_url pin;
     lat := latitude pin;
     lng := longitude pin;
     text := description pin;
     source := None; scraped_at := None; embedding_id := None;
     created_at := None; updated_at := None |}.

(** The loop of [index_sample_jobs] over the pins, from pin number [i];
    the list [SAMPLE_PINS] of routers/pins.py is an argument. *)
Fixpoint index_pins (self : VectorStore) (i : nat) (pins : list JobPin)
    (count : nat) (calls : list Call) : nat * list Call :=
  match pins with
  | [] => (count, calls)
  | pin :: rest =>
      let '(stored, cs) := upsert_job self i (pin_id pin) (job_of_pin pin) in
      index_pins self (S i) rest (if stored then S count else count) (calls ++ cs)
  end.

Definition index_sample_jobs (self : VectorStore) (SAMPLE_PINS : list JobPin)
    : nat * list Call :=
  index_pins self 0 SAMPLE_PINS 0 [].

(** The dict that [get_index_stats] returns. *)
Inductive Stats :=
  | StatsError (error : string)
  | StatsOf (total_vectors dimension : nat) (index_name : string).

Definition get_index_stats (self : VectorStore) : Stats :=
  match index self with
  | None => StatsError "Index not initialized"
  | Some index =>
      match describe_index_stats index with
      | Ok (total, dimension) => StatsOf total dimension INDEX_NAME
      | Raise e => StatsError e
      end
  end.

(** The services that [_initialize] reaches. *)
Record PineconeClient := {
  list_indexes : result (list string);
  create_index : string → nat → string → string → string → result unit;
  open_index : string → result Index;
}.

Record Services := {
  make_openai : string → result OpenAI;
  make_pinecone : string → result PineconeClient;
}.

Inductive InitCall :=
  | MakeOpenAI (api_key : string)
  | MakePinecone (api_key : string)
  | ListIndexes
  | CreateIndex (name : string) (dimension : nat) (metric cloud region : string)
  | OpenIndex (name : string).

Definition _initialize (svc : Services) (settings : Config.Settings)
    (self : VectorStore) : VectorStore * list InitCall :=
  if Py.falsy (Config.openai_api_key settings) then (self, [])
  else if Py.falsy (Config.pinecone_api_key settings) then (self, [])
  else
    let calls := [MakeOpenAI (Config.openai_api_key settings)] in
    match make_openai svc (Config.openai_api_key settings) with
    | Raise _ => (self, calls)
    | Ok client =>
        let self := {| index := index self; openai_client := Some client |} in
        let calls := calls ++ [MakePinecone (Config.pinecone_api_key settings)] in
        match make_pinecone svc (Config.pinecone_api_key settings) with
        | Raise _ => (self, calls)
        | Ok pc =>
            let calls := calls ++ [ListIndexes] in
            match list_indexes pc with
            | Raise _ => (self, calls)
            | Ok existing_indexes =>
                let '(created, calls) :=
                  if decide (INDEX_NAME ∈ existing_indexes) then (Ok (), calls)
                  else
                    (create_index pc INDEX_NAME EMBEDDING_DIMENSION "cosine"
                       "aws" "us-east-1",
                     calls ++ [CreateIndex INDEX_NAME EMBEDDING_DIMENSION "cosine"
                                 "aws" "us-east-1"]) in
                match created with
                | Raise _ => (self, calls)
                | Ok _ =>
                    let calls := calls ++ [OpenIndex INDEX_NAME] in
                    match open_index pc INDEX_NAME with
                    | Raise _ => (self, calls)
                    | Ok index =>
                        ({| index := Some index;
                            openai_client := openai_client self |}, calls)
                    end
                end
            end
        end
    end.

(** [VectorStore()] *)
Definition __init__ (svc : Services) (settings : Config.Settings)
    : VectorStore * list InitCall :=
  _initialize svc settings {| index := None; openai_client := None |}.

(** [get_vector_store], on the module variable [_vector_store]: the store
    returned, the new value of the variable, and the calls made. *)
Definition get_vector_store (svc : Services) (settings : Config.Settings)
    (_vector_store : option VectorStore)
    : VectorStore * option VectorStore * list InitCall :=
  match _vector_store with
  | Some vs => (vs, Some vs, [])
  | None =>
      let '(vs, calls) := __init__ svc settings in
      (vs, Some vs, calls)
  end.

End VectorStore.

(** ** The vector store: notions and sample data *)

Module VectorStoreSpec.
Import VectorStore.

(** The keys of the metadata stored with a vector. *)
Definition METADATA_KEYS : gset string :=
  {[ "job_title"; "company"; "location"; "apply_url"; "lat"; "lng"; "text" ]}.

(** The number of upserts among the calls. *)
Fixpoint upserts (calls : list Call) : nat :=
  match calls with
  | [] => 0
  | Upsert _ :: rest => S (upserts rest)
  | _ :: rest => upserts rest
  end.

(** The number of queries of the index among the calls. *)
Fixpoint queries (calls : list Call) : nat :=
  match calls with
  | [] => 0
  | Query _ _ _ :: rest => S (queries rest)
  | _ :: rest => queries rest
  end.

(** The match that a query gives back for a stored vector. *)
Definition match_of (v : VectorRecord) (score : Q) : Match :=
  {| match_id := vector_id v; score := score;
     match_metadata := Some (metadata v) |}.

(** Whether the [i]-th sample pin is stored. *)
Definition pin_stored (self : VectorStore) (i : nat) (pin : JobPin) : bool :=
  (upsert_job self i (pin_id pin) (job_of_pin pin)).1.

(** Sample: a store whose clients work, and whose index answers every query
    with one match that has no metadata after one that has. *)
Definition sample_client : OpenAI :=
  {| embeddings_create := λ _ _ _, Ok [0.5%Q] |}.

Definition sample_index : Index :=
  {| upsert := λ _ _, Ok ();
     query := λ _ _ _ _,
       Ok [ {| match_id := "a"; score := 0.9%Q;
               match_metadata := Some {[ "job_title" := VStr "Developer" ]} |};
            {| match_id := "b"; score := 0.8%Q; match_metadata := None |} ];
     describe_index_stats := Ok (2, 1536) |}.

Definition sample_store : VectorStore :=
  {| index := Some sample_index; openai_client := Some sample_client |}.

Definition sample_posting : JobPosting :=
  {| id := None; job_title := "Developer"; company := "TechCorp";
     location := "Pune"; apply_url := "https://example.com";
     lat := 18.5204; lng := 73.8567; text := Some "Build things";
     source := None; scraped_at := None; embedding_id := None;
     created_at := None; updated_at := None |}.

End VectorStoreSpec.

(** * Properties *)

(** ** Python strings: slices and truth values *)

Module PyFacts.
Import Py.

Lemma falsy_true s : falsy s = true ↔ s = "".
Proof. by destruct s. Qed.

Lemma falsy_false s : falsy s = false ↔ s ≠ "".
Proof. by destruct s. Qed.

Lemma slice_to_length n : ∀ s, String.length (slice_to n s) ≤ n.
Proof.
  induction n as [|n IH]; intros [|c s]; simpl; try lia.
  specialize (IH s). lia.
Qed.

Lemma slice_to_nonempty n s : s ≠ "" → slice_to (S n) s ≠ "".
Proof. by destruct s. Qed.

Lemma falsy_slice_to n s : falsy (slice_to (S n) s) = falsy s.
Proof. by destruct s. Qed.

End PyFacts.

(** ** Loops that append the items of each element *)

Module ListFacts.

Lemma concat_imap_length {A B} (f : nat → A → list B) (l : list A) :
  (∀ i x, length (f i x) ≤ 1) → length (concat (imap f l)) ≤ length l.
Proof.
  revert f. induction l as [|x l IH]; intros f Hf; simpl; [lia|].
  rewrite length_app.
  pose proof (Hf 0 x). pose proof (IH (f ∘ S) (λ i y, Hf (S i) y)). lia.
Qed.

Lemma elem_of_concat_imap {A B} (f : nat → A → list B) (l : list A) (y : B) :
  y ∈ concat (imap f l) → ∃ i x, l !! i = Some x ∧ y ∈ f i x.
Proof.
  revert f. induction l as [|x l IH]; intros f; simpl.
  - by intros ?%elem_of_nil.
  - intros [Hy|Hy]%elem_of_app.
    + by exists 0, x.
    + destruct (IH _ Hy) as (i & z & Hi & Hz). by exists (S i), z.
Qed.

End ListFacts.

(** ** WebSearchAgent: removal of duplicate urls *)

Module WebSearchFacts.
Import WebSearch WebSearchSpec.

Lemma hit_of_url q r : hit_of q r !! "url" = Some (Py.dict_get r "href" "").
Proof. unfold hit_of. by simplify_map_eq. Qed.

Lemma accumulate_has_url ddgs m qs : ∀ i acc,
  Forall (λ r, is_Some (r !! "url")) acc →
  Forall (λ r, is_Some (r !! "url")) (accumulate ddgs m i qs acc).
Proof.
  induction qs as [|q qs IH]; intros i acc Hacc; simpl; [done|].
  apply IH. destruct (ddgs i q m); [|done].
  apply Forall_app; split; [done|].
  apply Forall_fmap, Forall_forall. intros r _. simpl.
  rewrite hit_of_url. eauto.
Qed.

Lemma remove_duplicates_fresh rs : ∀ seen acc,
  Forall (λ r, is_Some (r !! "url")) rs →
  remove_duplicates rs seen acc = Ok (acc ++ fresh seen rs).
Proof.
  induction rs as [|r rs IH]; intros seen acc Hrs; simpl.
  - by rewrite app_nil_r.
  - apply Forall_cons in Hrs as [[u Hu] Hrs].
    unfold Py.getitem, url_of, Py.dict_get. rewrite Hu. simpl.
    destruct (decide (u ∈ seen)).
    + by apply IH.
    + rewrite IH by done. by rewrite <- app_assoc.
Qed.

Lemma fresh_sublist rs : ∀ seen, sublist (fresh seen rs) rs.
Proof.
  induction rs as [|r rs IH]; intros seen; simpl; [done|].
  destruct (decide _).
  - by apply sublist_cons.
  - by apply sublist_skip.
Qed.

Lemma elem_of_fresh_urls rs : ∀ seen u,
  u ∈ url_of <$> fresh seen rs ↔ u ∈ url_of <$> rs ∧ u ∉ seen.
Proof.
  induction rs as [|r rs IH]; intros seen u; simpl.
  - set_solver.
  - destruct (decide (url_of r ∈ seen)) as [Hin|Hout].
    + rewrite IH. set_solver.
    + rewrite fmap_cons, !elem_of_cons, IH.
      destruct (decide (u = url_of r)); set_solver.
Qed.

Lemma fresh_NoDup rs : ∀ seen, NoDup (url_of <$> fresh seen rs).
Proof.
  induction rs as [|r rs IH]; intros seen; simpl.
  - constructor.
  - destruct (decide _); [done|].
    rewrite fmap_cons. constructor; [|done].
    rewrite elem_of_fresh_urls. set_solver.
Qed.

Lemma fresh_first rs : ∀ seen x,
  x ∈ fresh seen rs →
  ∃ before after, rs = before ++ x :: after ∧ url_of x ∉ url_of <$> before.
Proof.
  induction rs as [|r rs IH]; intros seen x; simpl.
  - by intros ?%elem_of_nil.
  - destruct (decide (url_of r ∈ seen)) as [Hin|Hout].
    + intros Hx. destruct (IH _ _ Hx) as (b & a & -> & Hb).
      exists (r :: b), a. split; [done|].
      assert (url_of x ∈ url_of <$> fresh seen (b ++ x :: a)) as Hu
        by (by apply list_elem_of_fmap_2).
      apply elem_of_fresh_urls in Hu as [_ Hu].
      rewrite fmap_cons, not_elem_of_cons. split; [congruence|done].
    + intros [->|Hx]%elem_of_cons.
      * exists [], rs. split; [done|]. apply not_elem_of_nil.
      * destruct (IH _ _ Hx) as (b & a & -> & Hb).
        exists (r :: b), a. split; [done|].
        assert (url_of x ∈ url_of <$> fresh ({[url_of r]} ∪ seen) (b ++ x :: a))
          as Hu by (by apply list_elem_of_fmap_2).
        apply elem_of_fresh_urls in Hu as [_ Hu].
        rewrite fmap_cons, not_elem_of_cons. split; [|done].
        intros Heq. apply Hu, elem_of_union_l, elem_of_singleton, Heq.
Qed.

(** C9. Whatever the search engine answers, [run] returns, and the list
    it returns is the accumulated list of hits with every url kept exactly
    once: no url is repeated, every url of the accumulated hits is still
    there, the hits kept are in the order they were accumulated in, and a
    hit that is kept is the first one with its url. *)
Theorem run_deduplicates (ddgs : Ddgs) (query : option string) (max_results : nat) :
  let hits := accumulate ddgs max_results 0 (queries_of query) [] in
  ∃ out,
    run ddgs query max_results = Ok out
    ∧ NoDup (url_of <$> out)
    ∧ (∀ u, u ∈ url_of <$> out ↔ u ∈ url_of <$> hits)
    ∧ sublist out hits
    ∧ (∀ x, x ∈ out →
        ∃ before after,
          hits = before ++ x :: after ∧ url_of x ∉ url_of <$> before).
Proof.
  intros hits. exists (fresh ∅ hits). split; [|split; [|split; [|split]]].
  - unfold run. fold hits. rewrite remove_duplicates_fresh; [done|].
    by apply accumulate_has_url.
  - apply fresh_NoDup.
  - intros u. rewrite elem_of_fresh_urls. set_solver.
  - apply fresh_sublist.
  - apply fresh_first.
Qed.

(** The example of the specification: [a.com] twice and [b.com] once give
    [a.com; b.com], each hit tagged with the first query that found it. *)
Example run_two_queries :
  url_of <$> output_or_empty (run two_queries None 10) = ["a.com"; "b.com"]
  ∧ (λ r, Py.dict_get r "source_query" "") <$> output_or_empty (run two_queries None 10)
    = ["software engineer jobs India hiring 2024"; "developer jobs Bangalore hiring"].
Proof. split; vm_compute; reflexivity. Qed.

End WebSearchFacts.

(** ** ScraperAgent: the pages it emits *)

Module ScraperFacts.
Import Scraper ScraperSpec.

(** The loop emits, hit by hit, what [scrape_item] emits. *)
Lemma scrape_loop_concat http items : ∀ i scraped,
  scrape_loop http i items scraped
  = scraped ++ concat (imap (λ j, scrape_item http (i + j)) items).
Proof.
  induction items as [|item rest IH]; intros i scraped; simpl.
  - by rewrite app_nil_r.
  - rewrite IH, <- app_assoc, Nat.add_0_r. do 3 f_equal.
    apply imap_ext. intros j x _. simpl. f_equal. lia.
Qed.

Lemma run_concat http urls :
  run http urls = concat (imap (scrape_item http) (take 10 urls)).
Proof. unfold run. by rewrite scrape_loop_concat. Qed.

(** A hit yields a page only when its url is not empty, the fetch
    succeeded and the text fetched is not empty; the page then carries the
    first 5000 characters of that text. *)
Lemma scrape_item_inv http i item page :
  page ∈ scrape_item http i item →
  ∃ text,
    Py.dict_get item "url" "" ≠ ""
    ∧ http i (Py.dict_get item "url" "") = Ok text
    ∧ text ≠ ""
    ∧ page = page_of item (Py.dict_get item "url" "") (Py.slice_to 5000 text).
Proof.
  unfold scrape_item, _scrape_url.
  destruct (Py.falsy (Py.dict_get item "url" "")) eqn:Hurl;
    [by intros ?%elem_of_nil|].
  destruct (http i _) as [text|e]; [|by intros ?%elem_of_nil].
  destruct (Py.falsy text) eqn:Htext; [by intros ?%elem_of_nil|].
  change 5000 with (S 4999). rewrite PyFacts.falsy_slice_to, Htext.
  intros ->%list_elem_of_singleton. exists text.
  by rewrite <- !PyFacts.falsy_false.
Qed.

Lemma scrape_item_length http i item : length (scrape_item http i item) ≤ 1.
Proof.
  unfold scrape_item. repeat case_match; simpl; lia.
Qed.

Lemma scraper_run_length http urls : length (run http urls) ≤ length urls.
Proof.
  rewrite run_concat.
  etrans; [apply ListFacts.concat_imap_length, scrape_item_length|].
  rewrite length_take. lia.
Qed.

(** C10. Every page emitted by the scraper comes from one of the first ten
    hits, whose url is not empty, whose fetch succeeded and whose text is
    not empty; its [content] is the first 5000 characters of that text,
    hence a non-empty string of at most 5000 characters. A hit with an
    empty url, a failed fetch or an empty text therefore has no page. *)
Theorem run_pages_have_content (http : Http) (urls : list (gmap string string))
    (page : gmap string string) :
  page ∈ run http urls →
  ∃ i item text content,
    take 10 urls !! i = Some item
    ∧ Py.dict_get item "url" "" ≠ ""
    ∧ http i (Py.dict_get item "url" "") = Ok text
    ∧ text ≠ ""
    ∧ page !! "content" = Some content
    ∧ content = Py.slice_to 5000 text
    ∧ content ≠ ""
    ∧ String.length content ≤ 5000.
Proof.
  rewrite run_concat. intros (i & item & Hi & Hpage)%ListFacts.elem_of_concat_imap.
  apply scrape_item_inv in Hpage as (text & Hurl & Hhttp & Htext & ->).
  exists i, item, text, (Py.slice_to 5000 text).
  split_and!; try done.
  - change 5000 with (S 4999). by apply PyFacts.slice_to_nonempty.
  - apply PyFacts.slice_to_length.
Qed.

Lemma the_page_scraped : the_page ∈ run one_site three_hits.
Proof. vm_compute. apply list_elem_of_here. Qed.

Lemma run_pages_have_content_witness :
  the_page ∈ run one_site three_hits
  ∧ ∃ i item text content,
      take 10 three_hits !! i = Some item
      ∧ Py.dict_get item "url" "" ≠ ""
      ∧ one_site i (Py.dict_get item "url" "") = Ok text
      ∧ text ≠ ""
      ∧ the_page !! "content" = Some content
      ∧ content = Py.slice_to 5000 text
      ∧ content ≠ ""
      ∧ String.length content ≤ 5000.
Proof.
  split; [apply the_page_scraped|].
  apply (run_pages_have_content one_site three_hits the_page), the_page_scraped.
Defined.

End ScraperFacts.

(** ** ExtractionAgent: the two strategies *)

Module ExtractionFacts.
Import Extraction ExtractionSpec.

Lemma _mock_extract_fmap items : ∀ jobs,
  _mock_extract items jobs = jobs ++ (mock_job <$> items).
Proof.
  induction items as [|item rest IH]; intros jobs; simpl.
  - by rewrite app_nil_r.
  - by rewrite IH, <- app_assoc.
Qed.

Lemma extract_loop_concat llm items : ∀ i jobs,
  extract_loop llm i items jobs
  = jobs ++ concat (imap (λ j, extract_item llm (i + j)) items).
Proof.
  induction items as [|item rest IH]; intros i jobs; simpl.
  - by rewrite app_nil_r.
  - rewrite IH, <- app_assoc, Nat.add_0_r. do 3 f_equal.
    apply imap_ext. intros j x _. simpl. f_equal. lia.
Qed.

Lemma run_fallback pages : run None pages = mock_job <$> pages.
Proof. unfold run. by rewrite _mock_extract_fmap. Qed.

Lemma run_llm llm pages :
  run (Some llm) pages = concat (imap (extract_item llm) pages).
Proof. unfold run. by rewrite extract_loop_concat. Qed.

Lemma extract_item_length llm i item : length (extract_item llm i item) ≤ 1.
Proof. unfold extract_item. repeat case_match; simpl; lia. Qed.

Lemma extraction_run_length llm pages : length (run llm pages) ≤ length pages.
Proof.
  destruct llm as [f|].
  - rewrite run_llm.
    apply ListFacts.concat_imap_length, extract_item_length.
  - by rewrite run_fallback, length_fmap.
Qed.

(** Under the language model a page yields a job only when it has content
    and the model answered; the job is the answer, its [apply_url] replaced
    by the url of the page when the answer has none. *)
Lemma extract_item_inv llm i item job :
  job ∈ extract_item llm i item →
  ∃ answer,
    Py.dict_get item "content" "" ≠ ""
    ∧ llm i (Py.slice_to 3000 (Py.dict_get item "content" "")) = Ok answer
    ∧ job = (if no_url (apply_url answer)
             then with_apply_url answer (Py.dict_get item "url" "")
             else answer).
Proof.
  unfold extract_item.
  destruct (Py.falsy _) eqn:Hcontent; [by intros ?%elem_of_nil|].
  destruct (llm i _) as [answer|e]; [|by intros ?%elem_of_nil].
  intros ->%list_elem_of_singleton. exists answer.
  by rewrite <- PyFacts.falsy_false.
Qed.

(** C3, as stated, fails: the fallback copies an empty title, and the
    answer of the model is kept as it is. *)
Lemma empty_title_and_company :
  job_title <$> run None [untitled_page] = [""]
  ∧ job_title <$> run (Some terse_model) [untitled_page] = [""]
  ∧ company <$> run (Some terse_model) [untitled_page] = [""].
Proof. by vm_compute. Qed.

(** C3, amended. Every job of the output comes from a page of the input.
    Under the fallback its company is ["Unknown Company"], its title is
    ["Software Engineer"] when the page has no [title] key and is not empty
    when the page has no title or a title that is not empty, and its
    [apply_url] is the url of the page. Under the language model its title
    and company are those of the answer of the model, and its [apply_url] is
    the url of the page exactly when the answer supplies none ([None] or
    empty), the one of the answer otherwise. *)
Theorem run_fields (llm : option Llm) (pages : list (gmap string string))
    (job : ExtractedJob) :
  job ∈ run llm pages →
  ∃ i page,
    pages !! i = Some page
    ∧ match llm with
      | None =>
          company job = "Unknown Company"
          ∧ company job ≠ ""
          ∧ (page !! "title" = None → job_title job = "Software Engineer")
          ∧ (page !! "title" ≠ Some "" → job_title job ≠ "")
          ∧ apply_url job = Some (Py.dict_get page "url" "")
      | Some f =>
          ∃ answer,
            f i (Py.slice_to 3000 (Py.dict_get page "content" "")) = Ok answer
            ∧ job_title job = job_title answer
            ∧ company job = company answer
            ∧ (no_url (apply_url answer) = true →
               apply_url job = Some (Py.dict_get page "url" ""))
            ∧ (no_url (apply_url answer) = false →
               apply_url job = apply_url answer)
      end.
Proof.
  destruct llm as [f|].
  - rewrite run_llm. intros (i & page & Hi & Hjob)%ListFacts.elem_of_concat_imap.
    apply extract_item_inv in Hjob as (answer & _ & Hf & ->).
    exists i, page. split; [done|]. exists answer.
    destruct (no_url (apply_url answer)); by split_and!.
  - rewrite run_fallback. intros (page & -> & Hpage)%list_elem_of_fmap.
    apply list_elem_of_lookup in Hpage as [i Hi].
    exists i, page. split; [done|]. simpl. unfold Py.dict_get.
    split_and!; try done.
    + by intros ->.
    + by destruct (page !! "title") as [[|]|].
Qed.

Lemma run_fields_witness :
  mock_job untitled_page ∈ run None [untitled_page]
  ∧ ∃ i page,
      [untitled_page] !! i = Some page
      ∧ company (mock_job untitled_page) = "Unknown Company"
      ∧ company (mock_job untitled_page) ≠ ""
      ∧ (page !! "title" = None →
         job_title (mock_job untitled_page) = "Software Engineer")
      ∧ (page !! "title" ≠ Some "" → job_title (mock_job untitled_page) ≠ "")
      ∧ apply_url (mock_job untitled_page) = Some (Py.dict_get page "url" "").
Proof.
  assert (mock_job untitled_page ∈ run None [untitled_page]) as Hin
    by (vm_compute; apply list_elem_of_here).
  split; [exact Hin|].
  exact (run_fields None [untitled_page] (mock_job untitled_page) Hin).
Defined.

(** C4 at that page: the fallback does not look at [content]; the page is
    not skipped, while with a model configured it is. *)
Theorem fallback_keeps_page_without_content :
  run None [page_without_content]
  = [ {| job_title := "Data Engineer"; company := "Unknown Company";
         location := "India"; apply_url := Some "https://jobs.example/2";
         description := Some "" |} ]
  ∧ run (Some terse_model) [page_without_content] = [].
Proof. by vm_compute. Qed.

End ExtractionFacts.

(** ** GeocodingAgent: the city table and the batch *)

Module GeocodingFacts.
Import Geocoding GeocodingSpec.

Lemma append_cons c s t : String c s +:+ t = String c (s +:+ t).
Proof. reflexivity. Qed.

(** [Py.startswith] and [Py.contains] are the prefix and the substring
    relations. *)
Lemma startswith_spec p : ∀ s,
  Py.startswith p s = true ↔ ∃ post, s = p +:+ post.
Proof.
  induction p as [|a p IH]; intros s; simpl.
  - split; [by exists s|done].
  - destruct s as [|b s].
    + split; [done|]. by intros [post ?].
    + destruct (Ascii.eqb a b) eqn:Hab.
      * apply Ascii.eqb_eq in Hab as ->. rewrite IH.
        split; intros [post Hpost]; exists post;
          rewrite append_cons in *; congruence.
      * apply Ascii.eqb_neq in Hab.
        split; [done|]. intros [post Hpost].
        rewrite append_cons in Hpost. congruence.
Qed.

Lemma contains_spec k : ∀ s,
  Py.contains k s = true ↔ ∃ pre post, s = pre +:+ k +:+ post.
Proof.
  induction s as [|c s IH]; simpl; rewrite orb_true_iff, startswith_spec.
  - split.
    + intros [[post Hpost]|?]; [|done]. by exists "", post.
    + intros (pre & post & Hs). left. destruct pre; [|done]. by exists post.
  - rewrite IH. split.
    + intros [[post Hpost]|(pre & post & ->)].
      * by exists "", post.
      * by exists (String c pre), post.
    + intros (pre & post & Hs). destruct pre as [|c' pre].
      * left. by exists post.
      * right. exists pre, post. rewrite append_cons in Hs. congruence.
Qed.

(** The table answers with the first key, in its order, that occurs in
    the location. *)
Lemma cache_lookup_Some cache s coords :
  cache_lookup cache s = Some coords ↔
  ∃ before key after,
    cache = before ++ (key, coords) :: after
    ∧ Py.contains key s = true
    ∧ Forall (λ entry, Py.contains entry.1 s = false) before.
Proof.
  induction cache as [|[key' coords'] cache IH]; simpl.
  - split; [done|]. intros (before & ? & ? & Hnil & _). by destruct before.
  - destruct (Py.contains key' s) eqn:Hkey.
    + split.
      * intros [= ->]. by exists [], key', cache.
      * intros ([|entry before] & key & after & Heq & Hin & Hbefore);
          simplify_eq/=; [done|].
        apply Forall_cons in Hbefore as [Hentry _]. simpl in Hentry. congruence.
    + rewrite IH. split.
      * intros (before & key & after & -> & Hin & Hbefore).
        exists ((key', coords') :: before), key, after. split_and!; try done.
        by apply Forall_cons.
      * intros ([|entry before] & key & after & Heq & Hin & Hbefore);
          simplify_eq/=; [congruence|].
        apply Forall_cons in Hbefore as [_ Hbefore]. by exists before, key, after.
Qed.

Lemma cache_lookup_None cache s :
  cache_lookup cache s = None ↔
  Forall (λ entry, Py.contains entry.1 s = false) cache.
Proof.
  induction cache as [|[key coords] cache IH]; simpl.
  - split; [constructor|done].
  - destruct (Py.contains key s) eqn:Hkey.
    + split; [done|]. intros [Hk _]%Forall_cons. simpl in Hk. congruence.
    + rewrite IH. split; [intros ?; by apply Forall_cons|by intros [_ ?]%Forall_cons].
Qed.

(** [_geocode_location] raises exactly what a lookup raises outside the two
    classes it catches, and there is a lookup only for a location that is
    not empty and matches no key of the table. *)
Lemma geocode_location_Raise unicode geocode i location e :
  (_geocode_location unicode geocode i location).1 = Raise e ↔
  location ≠ ""
  ∧ cache_lookup CITY_CACHE (Py.strip unicode (Py.lower unicode location)) = None
  ∧ geocode i (location +:+ ", India") = OtherException e.
Proof.
  unfold _geocode_location. destruct (Py.falsy location) eqn:Hloc.
  - apply PyFacts.falsy_true in Hloc. split; [done|]. by intros [? _].
  - apply PyFacts.falsy_false in Hloc.
    destruct (cache_lookup _ _) as [coords|]; [split; [done|by intros (_ & ? & _)]|].
    destruct (geocode i _) as [| |[]|msg]; simpl;
      (split; [intros [= ->] || done|intros (_ & _ & [= ->]) || by intros (_ & _ & ?)]);
      done.
Qed.

(** C5, as stated, fails: on a cache miss, a lookup that fails with an
    exception of another class than [GeocoderTimedOut] and
    [GeocoderServiceError] is not caught, and [_geocode_location] raises
    it instead of returning the default center. *)
Lemma lookup_exception_is_not_caught :
  _geocode_location Py.ascii_only lookup_raises 0 "Timbuktu"
  = (Raise "lookup failed", [Sleep 1; Geocode "Timbuktu, India"]).
Proof. by vm_compute. Qed.

(** C5, amended. For every location, whatever [lower] and [strip] do
    beyond ASCII and whatever the geocoding service answers: an empty
    location gives the default center at once; a location whose lowercased,
    stripped form contains some key of the city table gives the coordinates
    of the first such key in the order of the table, and neither sleeps nor
    calls the service; a location that matches no key gives the default
    center when the lookup finds nothing or fails with one of the two
    geopy errors that are caught, and the coordinates found otherwise. The
    function raises exactly when the location is not empty, matches no key,
    and the lookup raises an exception of another class, which it passes
    on. ["Koramangala, Bangalore"], once lowercased and stripped, gives
    (12.9716, 77.5946). *)
Theorem geocode_location_cases (unicode : Py.Unicode) (geocode : Nominatim)
    (i : nat) (location : string) :
  let location_lower := Py.strip unicode (Py.lower unicode location) in
  (location = "" →
     _geocode_location unicode geocode i location = (Ok DEFAULT_CENTER, []))
  ∧ (location ≠ "" →
     Exists (λ entry, Py.contains entry.1 location_lower = true) CITY_CACHE →
     ∃ before key coords after,
       CITY_CACHE = before ++ (key, coords) :: after
       ∧ Py.contains key location_lower = true
       ∧ Forall (λ entry, Py.contains entry.1 location_lower = false) before
       ∧ _geocode_location unicode geocode i location = (Ok coords, []))
  ∧ (location ≠ "" →
     Forall (λ entry, Py.contains entry.1 location_lower = false) CITY_CACHE →
     (_geocode_location unicode geocode i location).2
     = [Sleep 1; Geocode (location +:+ ", India")]
     ∧ (geocode i (location +:+ ", India") = NoLocation
        ∨ (∃ e, geocode i (location +:+ ", India") = Failed e) →
        (_geocode_location unicode geocode i location).1 = Ok DEFAULT_CENTER)
     ∧ (∀ latitude longitude,
          geocode i (location +:+ ", India") = Location latitude longitude →
          (_geocode_location unicode geocode i location).1
          = Ok (latitude, longitude))
     ∧ (∀ e,
          geocode i (location +:+ ", India") = OtherException e →
          (_geocode_location unicode geocode i location).1 = Raise e))
  ∧ (∀ e,
       (_geocode_location unicode geocode i location).1 = Raise e ↔
       location ≠ ""
       ∧ Forall (λ entry, Py.contains entry.1 location_lower = false) CITY_CACHE
       ∧ geocode i (location +:+ ", India") = OtherException e)
  ∧ (Py.strip unicode (Py.lower unicode "Koramangala, Bangalore")
     = "koramangala, bangalore" →
     _geocode_location unicode geocode i "Koramangala, Bangalore"
     = (Ok (12.9716, 77.5946)%Q, []))
  ∧ _geocode_location Py.ascii_only geocode i "Koramangala, Bangalore"
    = (Ok (12.9716, 77.5946)%Q, [])
  ∧ DEFAULT_CENTER = (20.5937, 78.9629)%Q.
Proof.
  intros location_lower. split_and!.
  - by intros ->.
  - intros Hne Hhit. unfold _geocode_location. fold location_lower.
    apply PyFacts.falsy_false in Hne as ->.
    destruct (cache_lookup CITY_CACHE location_lower) as [coords|] eqn:Hlookup.
    + apply cache_lookup_Some in Hlookup as (before & key & after & ? & ? & ?).
      by exists before, key, coords, after.
    + apply cache_lookup_None in Hlookup.
      apply Exists_exists in Hhit as (entry & Hentry & Hin).
      rewrite Forall_forall in Hlookup.
      rewrite (Hlookup entry Hentry) in Hin. done.
  - intros Hne Hmiss. unfold _geocode_location. fold location_lower.
    apply PyFacts.falsy_false in Hne as ->.
    apply cache_lookup_None in Hmiss as ->.
    split_and!.
    + by destruct (geocode i _) as [| |[]|].
    + by intros [->|[[msg|msg] ->]].
    + by intros latitude longitude ->.
    + by intros e ->.
  - intros e. rewrite geocode_location_Raise. fold location_lower.
    by rewrite cache_lookup_None.
  - intros Hlower. unfold _geocode_location. simpl Py.falsy. cbv iota.
    by rewrite Hlower.
  - done.
  - done.
Qed.

(** The examples of the specification, with the service down. *)
Example geocode_examples :
  _geocode_location Py.ascii_only service_down 0 "Koramangala, Bangalore"
  = (Ok (12.9716, 77.5946)%Q, [])
  ∧ _geocode_location Py.ascii_only service_down 0 ""
    = (Ok (20.5937, 78.9629)%Q, [])
  ∧ _geocode_location Py.ascii_only service_down 0 "Timbuktu"
    = (Ok (20.5937, 78.9629)%Q, [Sleep 1; Geocode "Timbuktu, India"])
  ∧ _geocode_location Py.ascii_only service_down 0 "New Delhi"
    = (Ok (28.6139, 77.2090)%Q, []).
Proof. by vm_compute. Qed.

Lemma extracted_geocoded job coords : extracted (geocoded job coords) = job.
Proof. by destruct job. Qed.

(** When the loop returns, it has appended one geocoded job per job. *)
Lemma geocode_loop_fmap unicode geocode jobs : ∀ i acc effects out,
  (geocode_loop unicode geocode i jobs acc effects).1 = Ok out →
  extracted <$> out = (extracted <$> acc) ++ jobs.
Proof.
  induction jobs as [|job rest IH]; intros i acc effects out; simpl.
  - intros [= <-]. by rewrite app_nil_r.
  - destruct (_geocode_location unicode geocode i _) as [[coords|e] effs];
      [|done].
    intros Hout. rewrite (IH _ _ _ _ Hout), fmap_app, <- app_assoc. simpl.
    by rewrite extracted_geocoded.
Qed.

(** When the loop raises, a lookup has raised an exception that is not
    caught. *)
Lemma geocode_loop_Raise unicode geocode jobs : ∀ i acc effects e,
  (geocode_loop unicode geocode i jobs acc effects).1 = Raise e →
  ∃ k job,
    jobs !! k = Some job
    ∧ (_geocode_location unicode geocode (i + k) (Extraction.location job)).1
      = Raise e.
Proof.
  induction jobs as [|job rest IH]; intros i acc effects e; simpl; [done|].
  destruct (_geocode_location unicode geocode i _) as [[coords|e'] effs] eqn:Hjob.
  - intros (k & job' & Hk & Hraise)%IH. exists (S k), job'.
    split; [done|]. by rewrite Nat.add_succ_r.
  - intros [= <-]. exists 0, job. by rewrite Nat.add_0_r, Hjob.
Qed.

Lemma run_extracted unicode geocode jobs out :
  (run unicode geocode jobs).1 = Ok out → extracted <$> out = jobs.
Proof. intros Hout. by rewrite (geocode_loop_fmap _ _ _ _ _ _ _ Hout). Qed.

Lemma geocoding_run_length unicode geocode jobs out :
  (run unicode geocode jobs).1 = Ok out → length out = length jobs.
Proof.
  intros Hout. by rewrite <- (run_extracted _ _ _ _ Hout), length_fmap.
Qed.

Lemma run_Raise unicode geocode jobs e :
  (run unicode geocode jobs).1 = Raise e →
  ∃ k job,
    jobs !! k = Some job
    ∧ Extraction.location job ≠ ""
    ∧ cache_lookup CITY_CACHE
        (Py.strip unicode (Py.lower unicode (Extraction.location job))) = None
    ∧ geocode k (Extraction.location job +:+ ", India") = OtherException e.
Proof.
  intros (k & job & Hk & Hraise)%geocode_loop_Raise.
  apply geocode_location_Raise in Hraise. by exists k, job.
Qed.


(** The sample batch with the service down, and with a lookup that raises:
    [run] raises at the first job that needs a lookup. *)
Example run_examples :
  ((λ g, (location g, lat g, lng g)) <$>
     output_or_empty (run Py.ascii_only service_down
       [job_in "Pune, Maharashtra"; job_in "Timbuktu"]).1)
  = [("Pune, Maharashtra", 18.5204, 73.8567)%Q; ("Timbuktu", 20.5937, 78.9629)%Q]
  ∧ run Py.ascii_only lookup_raises [job_in "Pune, Maharashtra"; job_in "Timbuktu"]
    = (Raise "lookup failed", [Sleep 1; Geocode "Timbuktu, India"]).
Proof. by vm_compute. Qed.

End GeocodingFacts.

(** ** IndexingAgent: one transaction per batch *)

Module IndexingFacts.
Import Indexing IndexingSpec.

Lemma commits_app ops1 ops2 : commits (ops1 ++ ops2) = commits ops1 + commits ops2.
Proof.
  induction ops1 as [|[]]; simpl; lia.
Qed.

Lemma commits_adds rows : commits (Add <$> rows) = 0.
Proof. by induction rows. Qed.

Lemma embed_embedded a w i job :
  (embed a i (uuid4 w i) job).1
  = if embedded a w i job then Some (uuid4 w i) else None.
Proof.
  unfold embed, embedded. by repeat case_match.
Qed.

(** What the loop has done when it stops: without an exception every job
    has been added; with an exception raised by the [k]-th [db.add], the
    [k] jobs before it have been added and recorded. *)
Lemma index_loop_spec a w jobs : ∀ i st,
  let rows := imap (λ j, job_row a w (i + j)) jobs in
  let records := imap (λ j, job_record w (i + j)) jobs in
  match index_loop a w i jobs st with
  | (st', None) =>
      indexed st' = indexed st ++ records
      ∧ pending st' = pending st ++ rows
      ∧ table st' = table st
      ∧ session_ops st' = session_ops st ++ (Add <$> rows)
      ∧ ∀ k row, rows !! k = Some row → db_add w (i + k) row = Ok ()
  | (st', Some e) =>
      ∃ k row,
        k < length jobs
        ∧ rows !! k = Some row
        ∧ db_add w (i + k) row = Raise e
        ∧ indexed st' = indexed st ++ take k records
        ∧ pending st' = pending st ++ take k rows
        ∧ table st' = table st
        ∧ session_ops st' = session_ops st ++ (Add <$> take (S k) rows)
  end.
Proof.
  induction jobs as [|job rest IH]; intros i st; simpl.
  - by rewrite !app_nil_r.
  - destruct (embed a i (uuid4 w i) job) as [embedding_id stored] eqn:Hembed.
    assert (row_of w i (uuid4 w i) embedding_id job = job_row a w (i + 0) job)
      as Hrow by (unfold job_row; by rewrite Nat.add_0_r, Hembed).
    rewrite Hrow.
    assert (∀ f : nat → Geocoding.GeocodedJob → JobPostingDB,
      imap ((λ j, f (i + j)) ∘ S) rest = imap (λ j, f (S i + j)) rest) as Hext.
    { intros f. apply imap_ext. intros j x _. simpl. f_equal. lia. }
    assert (∀ f : nat → Geocoding.GeocodedJob → IndexedJob,
      imap ((λ j, f (i + j)) ∘ S) rest = imap (λ j, f (S i + j)) rest) as Hext'.
    { intros f. apply imap_ext. intros j x _. simpl. f_equal. lia. }
    destruct (db_add w i (job_row a w (i + 0) job)) as [[]|e] eqn:Hadd.
    + specialize (IH (S i)
        {| indexed := indexed st ++ [record_of w i (uuid4 w i) job];
           pending := pending st ++ [job_row a w (i + 0) job];
           table := table st;
           vectors := vectors st ++ stored;
           session_ops := session_ops st ++ [Add (job_row a w (i + 0) job)] |}).
      simpl in IH. rewrite (Hext (job_row a w)), (Hext' (job_record w)).
      destruct (index_loop a w (S i) rest _) as [st' [e|]].
      * destruct IH as (k & row & Hk & Hrowk & Haddk & Hi & Hp & Ht & Hops).
        exists (S k), row. simpl.
        replace (i + S k) with (S i + k) by lia.
        split_and!; try done; try lia.
        -- by rewrite Hi, <- app_assoc; unfold job_record; rewrite Nat.add_0_r.
        -- by rewrite Hp, <- app_assoc.
        -- by rewrite Hops, <- app_assoc.
      * destruct IH as (Hi & Hp & Ht & Hops & Hall). split_and!; try done.
        -- by rewrite Hi, <- app_assoc; unfold job_record; rewrite Nat.add_0_r.
        -- by rewrite Hp, <- app_assoc.
        -- by rewrite Hops, <- app_assoc.
        -- intros [|k] row Hk; simpl in Hk.
           ++ rewrite Nat.add_0_r in *. by simplify_eq.
           ++ replace (i + S k) with (S i + k) by lia. by apply Hall.
    + exists 0, (job_row a w (i + 0) job). simpl.
      split_and!; try done; try lia.
      * by rewrite Nat.add_0_r in *.
      * by rewrite !app_nil_r.
      * by rewrite !app_nil_r.
Qed.

Lemma index_loop_from_0 a w jobs st :
  match index_loop a w 0 jobs st with
  | (st', None) =>
      indexed st' = indexed st ++ batch_records w jobs
      ∧ pending st' = pending st ++ batch_rows a w jobs
      ∧ table st' = table st
      ∧ session_ops st' = session_ops st ++ (Add <$> batch_rows a w jobs)
      ∧ ∀ k row, batch_rows a w jobs !! k = Some row → db_add w k row = Ok ()
  | (st', Some e) =>
      ∃ k row,
        k < length jobs
        ∧ batch_rows a w jobs !! k = Some row
        ∧ db_add w k row = Raise e
        ∧ indexed st' = indexed st ++ take k (batch_records w jobs)
        ∧ pending st' = pending st ++ take k (batch_rows a w jobs)
        ∧ table st' = table st
        ∧ session_ops st' = session_ops st ++ (Add <$> take (S k) (batch_rows a w jobs))
  end.
Proof. apply (index_loop_spec a w jobs 0 st). Qed.

Lemma batch_rows_length a w jobs : length (batch_rows a w jobs) = length jobs.
Proof. apply length_imap. Qed.

Lemma batch_records_length w jobs : length (batch_records w jobs) = length jobs.
Proof. apply length_imap. Qed.

Lemma run_state_ending a w rows jobs :
  Ending a w rows jobs (run_state a w rows jobs) (failure a w rows jobs).
Proof.
  unfold run_state, failure, try_body.
  pose proof (index_loop_from_0 a w jobs (initial rows)) as Hloop.
  destruct (index_loop a w 0 jobs (initial rows)) as [st [e|]]; simpl in *.
  - destruct Hloop as (k & row & Hk & Hrow & Hadd & Hi & Hp & Ht & Hops).
    apply (AddFailed _ _ _ _ _ e k row); simpl; try done.
    by rewrite Hops, <- app_assoc.
  - destruct Hloop as (Hi & Hp & Ht & Hops & Hall).
    destruct (commit w st) as [st' o] eqn:Hc. unfold commit in Hc.
    rewrite Hp in Hc.
    destruct (db_commit w (batch_rows a w jobs)) as [[]|e] eqn:Hcommit;
      simplify_eq/=.
    + apply Committed; simpl; rewrite ?Hops, ?Hp, <- ?app_assoc; done.
    + apply CommitFailed; simpl; rewrite ?Hops, <- ?app_assoc; done.
Qed.

Lemma run_state_pending a w rows jobs : pending (run_state a w rows jobs) = [].
Proof. unfold run_state. by destruct (try_body _ _ _ _) as [st [e|]]. Qed.

Lemma indexing_run_length a w rows jobs : length (run a w rows jobs) ≤ length jobs.
Proof.
  unfold run.
  destruct (run_state_ending a w rows jobs)
    as [_ _ _ _ ->|e _ _ _ _ ->|e k row _ _ _ _ _ ->].
  - by rewrite batch_records_length.
  - by rewrite batch_records_length.
  - rewrite length_take, batch_records_length. lia.
Qed.

(** C2. For every batch, whatever the vector index and the database do:
    [run] returns a list, the one accumulated in [indexed]; the calls on
    the session are the [db.add] of the loop, then, only when the loop has
    reached the end of the batch, one [db.commit], then [db.rollback] when
    the loop or the commit raised, then [db.close]: at most one commit, and
    exactly one when no [db.add] raised. When the loop or the commit raised,
    the table is what it was before the batch, and the list returned holds
    the records of the jobs added before the exception, all of them when
    it is the commit that failed, although none of their rows is in the
    table. Without an exception the table has gained the rows of the whole
    batch. The session is closed in every case, with nothing pending. *)
Theorem run_is_one_transaction (a : IndexingAgent) (w : World)
    (rows : list JobPostingDB) (jobs : list Geocoding.GeocodedJob) :
  let st := run_state a w rows jobs in
  run a w rows jobs = indexed st
  ∧ Ending a w rows jobs st (failure a w rows jobs)
  ∧ commits (session_ops st) ≤ 1
  ∧ (commits (session_ops st) = 1 ↔
     ∀ k row, batch_rows a w jobs !! k = Some row → db_add w k row = Ok ())
  ∧ (∃ adds rest,
       session_ops st = (Add <$> adds) ++ rest
       ∧ (rest = [Commit; Close] ∧ adds = batch_rows a w jobs
          ∨ rest = [Commit; Rollback; Close] ∧ adds = batch_rows a w jobs
          ∨ rest = [Rollback; Close]))
  ∧ last (session_ops st) = Some Close
  ∧ pending st = []
  ∧ (failure a w rows jobs = None → table st = rows ++ batch_rows a w jobs)
  ∧ (failure a w rows jobs ≠ None → table st = rows)
  ∧ (∃ k, k ≤ length jobs ∧ run a w rows jobs = take k (batch_records w jobs))
  ∧ (∀ e,
       (∀ k row, batch_rows a w jobs !! k = Some row → db_add w k row = Ok ()) →
       db_commit w (batch_rows a w jobs) = Raise e →
       run a w rows jobs = batch_records w jobs ∧ table st = rows).
Proof.
  intros st. pose proof (run_state_ending a w rows jobs) as Hend. fold st in Hend.
  pose proof (run_state_pending a w rows jobs) as Hpending. fold st in Hpending.
  split; [done|]. split; [done|]. unfold run. fold st.
  destruct Hend as [Hall Hc Hops Ht Hi|e Hall Hc Hops Ht Hi|e k row Hk Hrow Hadd Hops Ht Hi];
    rewrite Hops, ?commits_app, ?commits_adds, ?last_app; simpl.
  - split_and!; try done; try lia.
    + exists (batch_rows a w jobs), [Commit; Close]. auto.
    + exists (length jobs). split; [done|].
      by rewrite Hi, take_ge by (rewrite batch_records_length; lia).
    + intros e _ He. congruence.
  - split_and!; try done; try lia.
    + exists (batch_rows a w jobs), [Commit; Rollback; Close]. auto.
    + exists (length jobs). split; [done|].
      by rewrite Hi, take_ge by (rewrite batch_records_length; lia).
  - split_and!; try done; try lia.
    + split; [done|]. intros Hall. rewrite (Hall k row Hrow) in Hadd. done.
    + exists (take (S k) (batch_rows a w jobs)), [Rollback; Close]. auto.
    + exists k. split; [lia|done].
    + intros e' Hall _. rewrite (Hall k row Hrow) in Hadd. done.
Qed.

(** Two jobs on an empty table, with a commit that fails: both records
    are returned, no row is stored. *)
Example run_commit_fails :
  let st := run_state no_vectors disk_full [] [job "Developer"; job "Engineer"] in
  indexed_id <$> run no_vectors disk_full [] [job "Developer"; job "Engineer"]
  = ["id-0"; "id-1"]
  ∧ table st = []
  ∧ commits (session_ops st) = 1
  ∧ drop 2 (session_ops st) = [Commit; Rollback; Close].
Proof. by vm_compute. Qed.

Lemma batch_rows_lookup a w jobs i job :
  jobs !! i = Some job → batch_rows a w jobs !! i = Some (job_row a w i job).
Proof. intros Hi. unfold batch_rows. by rewrite list_lookup_imap, Hi. Qed.

(** C7. When the database accepts the batch (every [db.add] and the
    [db.commit] succeed), the table gains one row per job, in order,
    whatever the embedding calls do: the row of the [i]-th job carries the
    fields of that job, the identifier drawn for it, and as [embedding_id]
    that identifier when the embedding of this very job was computed and
    stored, [None] when it was not. A failed embedding changes nothing
    else: neither the row of its job nor those of the other jobs. *)
Theorem embedding_failure_is_local (a : IndexingAgent) (w : World)
    (rows : list JobPostingDB) (jobs : list Geocoding.GeocodedJob) :
  (∀ k row, batch_rows a w jobs !! k = Some row → db_add w k row = Ok ()) →
  db_commit w (batch_rows a w jobs) = Ok () →
  let st := run_state a w rows jobs in
  table st = rows ++ batch_rows a w jobs
  ∧ length (table st) = length rows + length jobs
  ∧ run a w rows jobs = batch_records w jobs
  ∧ ∀ i job,
      jobs !! i = Some job →
      ∃ row,
        table st !! (length rows + i) = Some row
        ∧ id row = uuid4 w i
        ∧ job_title row = Geocoding.job_title job
        ∧ company row = Geocoding.company job
        ∧ location row = Geocoding.location job
        ∧ apply_url row = or_empty (Geocoding.apply_url job)
        ∧ lat row = Geocoding.lat job
        ∧ lng row = Geocoding.lng job
        ∧ text row = Geocoding.description job
        ∧ embedding_id row
          = (if embedded a w i job then Some (uuid4 w i) else None).
Proof.
  intros Hadds Hcommit st.
  assert (table st = rows ++ batch_rows a w jobs ∧ indexed st = batch_records w jobs)
    as [Ht Hi].
  { destruct (run_state_ending a w rows jobs)
      as [_ _ _ Ht Hi|e _ Hc _ _ _|e k row _ Hrow Hadd _ _ _].
    - done.
    - congruence.
    - rewrite (Hadds k row Hrow) in Hadd. done. }
  split_and!; try done.
  - by rewrite Ht, length_app, batch_rows_length.
  - intros i job Hjob. exists (job_row a w i job). split.
    + rewrite Ht, lookup_app_r by lia.
      replace (length rows + i - length rows) with i by lia.
      by apply batch_rows_lookup.
    + unfold job_row. rewrite embed_embedded. by split_and!.
Qed.

Lemma embedding_failure_is_local_witness :
  (∀ k row,
     batch_rows second_embedding_fails working_database three_jobs !! k = Some row →
     db_add working_database k row = Ok ())
  ∧ db_commit working_database
      (batch_rows second_embedding_fails working_database three_jobs) = Ok ()
  ∧ embedded second_embedding_fails working_database 0 (job "Developer") = true
  ∧ embedded second_embedding_fails working_database 1 (job "Engineer") = false
  ∧ embedded second_embedding_fails working_database 2 (job "Analyst") = true
  ∧ table three_jobs_state
    = [] ++ batch_rows second_embedding_fails working_database three_jobs
  ∧ length (table three_jobs_state)
    = length (@nil JobPostingDB) + length three_jobs
  ∧ run second_embedding_fails working_database [] three_jobs
    = batch_records working_database three_jobs
  ∧ ∀ i job,
      three_jobs !! i = Some job →
      ∃ row,
        table three_jobs_state !! (length (@nil JobPostingDB) + i) = Some row
        ∧ id row = uuid4 working_database i
        ∧ job_title row = Geocoding.job_title job
        ∧ company row = Geocoding.company job
        ∧ location row = Geocoding.location job
        ∧ apply_url row = or_empty (Geocoding.apply_url job)
        ∧ lat row = Geocoding.lat job
        ∧ lng row = Geocoding.lng job
        ∧ text row = Geocoding.description job
        ∧ embedding_id row
          = (if embedded second_embedding_fails working_database i job
             then Some (uuid4 working_database i) else None).
Proof.
  split; [done|]. split; [done|]. do 3 (split; [by vm_compute|]).
  apply (embedding_failure_is_local second_embedding_fails working_database
           [] three_jobs); done.
Defined.

(** The example of the specification: three jobs, the embedding call
    fails for the second one only. *)
Example three_jobs_embedding_ids :
  embedding_id <$> table (run_state second_embedding_fails working_database [] three_jobs)
  = [Some "id-0"; None; Some "id-2"]
  ∧ job_title <$> table (run_state second_embedding_fails working_database [] three_jobs)
    = ["Developer"; "Engineer"; "Analyst"].
Proof. by vm_compute. Qed.

End IndexingFacts.

(** ** The orchestrator: failing stages and output counts *)

Module PipelineFacts.
Import Pipeline PipelineSpec.

Lemma raised_Some {A} (r : result (list A)) c :
  raised r = Some c → output_or_empty r = [].
Proof. by destruct r. Qed.

(** [run] never raises; the state it returns. *)
Lemma run_spec p q :
  ∃ st,
    run p q = Ok st
    ∧ query st = query_or_empty q
    ∧ chained p st
    ∧ error st = error_after p st.
Proof.
  unfold run, ainvoke, chained, error_after.
  unfold _search_node, _scrape_node, _extract_node, _geocode_node, _index_node.
  simpl.
  destruct (web_search p (Some (query_or_empty q)) 10) as [l1|c1] eqn:H1; simpl;
  [destruct (scraper p l1) as [l2|c2] eqn:H2|destruct (scraper p []) as [l2|c2] eqn:H2];
  simpl;
  (destruct (extraction p l2) as [l3|c3] eqn:H3 ||
   destruct (extraction p []) as [l3|c3] eqn:H3);
  simpl;
  (destruct (geocoding p l3) as [l4|c4] eqn:H4 ||
   destruct (geocoding p []) as [l4|c4] eqn:H4);
  simpl;
  (destruct (indexing p l4) as [l5|c5] eqn:H5 ||
   destruct (indexing p []) as [l5|c5] eqn:H5);
  simpl;
  (eexists; split; [reflexivity|]; simpl;
   rewrite ?H1, ?H2, ?H3, ?H4, ?H5; simpl; done).
Qed.

(** On an empty input the three last agents of the repository return an
    empty output and do not raise. *)
Lemma extraction_nil llm : Extraction.run llm [] = [].
Proof. by destruct llm. Qed.

Lemma geocoding_nil unicode geocode : (Geocoding.run unicode geocode []).1 = Ok [].
Proof. done. Qed.

Lemma indexing_nil a w rows : Indexing.run a w rows [] = [].
Proof.
  unfold Indexing.run, Indexing.run_state, Indexing.try_body, Indexing.commit.
  simpl. by destruct (Indexing.db_commit w []).
Qed.

(** The error slot holds the tag of a stage that raised when no later
    stage raised. *)
Lemma error_after_last p st s c :
  stage_failure p st s = Some c →
  (∀ s', position s < position s' → stage_failure p st s' = None) →
  error_after p st = stage_name s +:+ " error: " +:+ c.
Proof.
  intros Hs Hlater. unfold error_after. cbn [fold_left].
  destruct s;
    rewrite ?(Hlater Scrape), ?(Hlater Extract), ?(Hlater Geocode),
      ?(Hlater Index) by (simpl; lia);
    by rewrite Hs.
Qed.

Lemma failed_stage_output p st s c :
  chained p st → stage_failure p st s = Some c → output_count st s = 0.
Proof.
  intros (H1 & H2 & H3 & H4 & H5) Hs.
  destruct s; simpl in *;
    [rewrite H1|rewrite H2|rewrite H3|rewrite H4|rewrite H5];
    by rewrite (raised_Some _ _ Hs).
Qed.

(** C1. For every pipeline and query, [run] returns a state and does not
    raise. In that state every output is what the agent of its stage
    returned on the output of the stage before, so every stage has been
    executed, on an empty list after a stage that raised. A stage that
    raised has an empty output, and the error slot holds
    ["<StageName> error: <cause>"] for it when no later stage raised
    (each stage that raises overwrites the slot). In particular, when the
    scrape stage raises and the three later agents are those of the
    repository, the scraped, extracted, geocoded and indexed outputs are all
    empty and the error slot holds the message of the scrape stage. *)
Theorem failing_stage_is_recorded (p : JobDiscoveryPipeline) (q : option string) :
  ∃ st,
    run p q = Ok st
    ∧ chained p st
    ∧ (∀ s c,
         stage_failure p st s = Some c →
         output_count st s = 0
         ∧ ((∀ s', position s < position s' → stage_failure p st s' = None) →
            error st = stage_name s +:+ " error: " +:+ c))
    ∧ (∀ env c,
         extraction p = extraction (make env) →
         geocoding p = geocoding (make env) →
         indexing p = indexing (make env) →
         stage_failure p st Scrape = Some c →
         scraped_content st = []
         ∧ extracted_jobs st = []
         ∧ geocoded_jobs st = []
         ∧ indexed_jobs st = []
         ∧ error st = "Scrape error: " +:+ c).
Proof.
  destruct (run_spec p q) as (st & Hrun & _ & Hchain & Herr).
  exists st. split_and!; try done.
  - intros s c Hs. split; [by eapply failed_stage_output|].
    intros Hlater. rewrite Herr. by apply error_after_last.
  - intros env c He Hg Hi Hs.
    destruct Hchain as (_ & H2 & H3 & H4 & H5).
    simpl in Hs. rewrite (raised_Some _ _ Hs) in H2.
    rewrite H2, He in H3. simpl in H3. rewrite extraction_nil in H3.
    rewrite H3, Hg in H4. simpl in H4.
    rewrite H4, Hi in H5. simpl in H5. rewrite indexing_nil in H5.
    split_and!; try done.
    rewrite Herr. apply (error_after_last p st Scrape c); [done|].
    intros [] Hpos; simpl in Hpos; try lia; simpl.
    + by rewrite He.
    + by rewrite Hg, H3.
    + by rewrite Hi.
Qed.

(** The resilience example of the specification. *)
Example run_scraper_forced_to_fail :
  ∃ st,
    run scraper_forced_to_fail None = Ok st
    ∧ length (search_results st) = 2
    ∧ scraped_content st = []
    ∧ extracted_jobs st = []
    ∧ geocoded_jobs st = []
    ∧ indexed_jobs st = []
    ∧ error st = "Scrape error: connection pool exhausted".
Proof. eexists. split; [by vm_compute|]. by vm_compute. Qed.

Lemma output_or_empty_length {A B} (agent : list A → result (list B)) l :
  never_more agent → length (output_or_empty (agent l)) ≤ length l.
Proof.
  intros Hagent. destruct (agent l) as [out|c] eqn:Hl; simpl; [|lia].
  by apply Hagent.
Qed.

(** The counts do not increase along a run, whichever stages raise. *)
Lemma run_counts p q :
  never_more (scraper p) → never_more (extraction p) →
  never_more (geocoding p) → never_more (indexing p) →
  ∃ st,
    run p q = Ok st
    ∧ length (scraped_content st) ≤ length (search_results st)
    ∧ length (extracted_jobs st) ≤ length (scraped_content st)
    ∧ length (geocoded_jobs st) ≤ length (extracted_jobs st)
    ∧ length (indexed_jobs st) ≤ length (geocoded_jobs st).
Proof.
  intros Hs He Hg Hi.
  destruct (run_spec p q) as (st & Hrun & _ & (_ & H2 & H3 & H4 & H5) & _).
  exists st. split; [done|].
  split_and!; [rewrite H2|rewrite H3|rewrite H4|rewrite H5];
    by apply output_or_empty_length.
Qed.

(** C6. The scraper, the extractor, the geocoder and the indexer of the
    repository never return more items than they are given, whatever the
    outside world answers (the geocoder, when it raises, leaves its node
    with the empty list); in every run of the pipeline over these agents
    the output of each of these stages has at most as many items as the
    output of the stage before; and this stays so when stages are made to
    raise, or are replaced by agents that return no more than they are
    given, since a stage that raises leaves an empty output. *)
Theorem counts_never_increase :
  (∀ http urls, length (Scraper.run http urls) ≤ length urls)
  ∧ (∀ llm pages, length (Extraction.run llm pages) ≤ length pages)
  ∧ (∀ unicode geocode jobs,
       length (output_or_empty (Geocoding.run unicode geocode jobs).1)
       ≤ length jobs)
  ∧ (∀ a w rows jobs, length (Indexing.run a w rows jobs) ≤ length jobs)
  ∧ (∀ env q,
       ∃ st,
         run (make env) q = Ok st
         ∧ length (scraped_content st) ≤ length (search_results st)
         ∧ length (extracted_jobs st) ≤ length (scraped_content st)
         ∧ length (geocoded_jobs st) ≤ length (extracted_jobs st)
         ∧ length (indexed_jobs st) ≤ length (geocoded_jobs st))
  ∧ (∀ p q,
       never_more (scraper p) → never_more (extraction p) →
       never_more (geocoding p) → never_more (indexing p) →
       ∃ st,
         run p q = Ok st
         ∧ length (scraped_content st) ≤ length (search_results st)
         ∧ length (extracted_jobs st) ≤ length (scraped_content st)
         ∧ length (geocoded_jobs st) ≤ length (extracted_jobs st)
         ∧ length (indexed_jobs st) ≤ length (geocoded_jobs st)).
Proof.
  split_and!.
  - apply ScraperFacts.scraper_run_length.
  - apply ExtractionFacts.extraction_run_length.
  - intros unicode geocode jobs.
    destruct (Geocoding.run unicode geocode jobs).1 as [out|e] eqn:Hrun;
      simpl; [|lia].
    by rewrite (GeocodingFacts.geocoding_run_length _ _ _ _ Hrun).
  - apply IndexingFacts.indexing_run_length.
  - intros env q. apply run_counts; intros l out; simpl.
    + intros [= <-]. apply ScraperFacts.scraper_run_length.
    + intros [= <-]. apply ExtractionFacts.extraction_run_length.
    + intros Hrun. by rewrite (GeocodingFacts.geocoding_run_length _ _ _ _ Hrun).
    + intros [= <-]. apply IndexingFacts.indexing_run_length.
  - apply run_counts.
Qed.

End PipelineFacts.

(** * Further properties *)

(** ** WebSearchAgent: failing queries, shape of the hits, second pass *)

Module WebSearchMoreFacts.
Import WebSearch WebSearchSpec WebSearchMoreSpec.

Lemma accumulate_concat ddgs m qs : ∀ i acc,
  accumulate ddgs m i qs acc
  = acc ++ concat (imap (λ j q, hit_of q <$> output_or_empty (ddgs (i + j) q m)) qs).
Proof.
  induction qs as [|q qs IH]; intros i acc; simpl.
  - by rewrite app_nil_r.
  - rewrite IH, Nat.add_0_r.
    assert (imap ((λ j q0, hit_of q0 <$> output_or_empty (ddgs (i + j) q0 m)) ∘ S) qs
            = imap (λ j q0, hit_of q0 <$> output_or_empty (ddgs (S i + j) q0 m)) qs)
      as ->.
    { apply imap_ext. intros j x _. simpl. do 3 f_equal. lia. }
    destruct (ddgs i q m); simpl; by rewrite <- ?app_assoc.
Qed.

(** X1. The hits accumulated are, query after query, those of the queries
    whose search succeeded: a query whose search raises adds nothing and
    takes nothing away from the others. When every search raises, [run]
    returns the empty list. *)
Theorem failed_searches_are_skipped (ddgs : Ddgs) (query : option string)
    (max_results : nat) :
  accumulate ddgs max_results 0 (queries_of query) []
  = concat (imap (λ i q, hit_of q <$> output_or_empty (ddgs i q max_results))
              (queries_of query))
  ∧ ((∀ i q, output_or_empty (ddgs i q max_results) = []) →
     run ddgs query max_results = Ok []).
Proof.
  split.
  - by rewrite accumulate_concat.
  - intros Hdown. unfold run. rewrite accumulate_concat. simpl.
    assert (concat (imap (λ j q, hit_of q <$> output_or_empty (ddgs j q max_results))
                      (queries_of query)) = []) as ->; [|done].
    generalize (queries_of query). intros qs.
    assert (∀ k, concat (imap (λ j q,
              hit_of q <$> output_or_empty (ddgs (k + j) q max_results)) qs) = [])
      as Hk; [|apply (Hk 0)].
    induction qs as [|q qs IH]; intros k; simpl; [done|].
    rewrite Hdown. simpl.
    rewrite <- (IH (S k)). f_equal. apply imap_ext. intros j x _. simpl.
    do 3 f_equal. lia.
Qed.

Example run_engine_down : run engine_down None 10 = Ok [].
Proof. by vm_compute. Qed.

Lemma hit_of_dom q r : dom (hit_of q r) = HIT_KEYS.
Proof.
  unfold hit_of, HIT_KEYS. rewrite !dom_insert_L, dom_empty_L. set_solver.
Qed.

Lemma hit_of_source_query q r : hit_of q r !! "source_query" = Some q.
Proof. unfold hit_of. by simplify_map_eq. Qed.

Lemma elem_of_accumulate ddgs m qs hit :
  hit ∈ accumulate ddgs m 0 qs [] →
  ∃ i q r, qs !! i = Some q ∧ hit = hit_of q r.
Proof.
  rewrite accumulate_concat. simpl.
  intros (i & q & Hq & Hhit)%ListFacts.elem_of_concat_imap.
  apply list_elem_of_fmap in Hhit as (r & -> & _). by exists i, q, r.
Qed.

Lemma queries_of_given q : q ≠ "" → queries_of (Some q) = [q].
Proof. by destruct q. Qed.

Lemma run_fresh ddgs query m :
  run ddgs query m = Ok (fresh ∅ (accumulate ddgs m 0 (queries_of query) [])).
Proof.
  unfold run. rewrite WebSearchFacts.remove_duplicates_fresh; [done|].
  by apply WebSearchFacts.accumulate_has_url.
Qed.

(** X2. Every hit that [run] returns has exactly the four keys [title],
    [url], [snippet] and [source_query]; its [source_query] is one of the
    queries searched, and it is the query given when a non-empty one is
    given. *)
Theorem hits_are_well_formed (ddgs : Ddgs) (query : option string)
    (max_results : nat) :
  Forall (λ hit,
      dom hit = HIT_KEYS
      ∧ ∃ q, hit !! "source_query" = Some q
             ∧ q ∈ queries_of query
             ∧ (∀ given, query = Some given → given ≠ "" → q = given))
    (output_or_empty (run ddgs query max_results)).
Proof.
  rewrite run_fresh. simpl. apply Forall_forall. intros hit Hhit.
  eapply elem_of_sublist in Hhit; [|apply WebSearchFacts.fresh_sublist].
  apply elem_of_accumulate in Hhit as (i & q & r & Hq & ->).
  split; [apply hit_of_dom|]. exists q. split_and!.
  - apply hit_of_source_query.
  - by eapply list_elem_of_lookup_2.
  - intros given -> Hgiven. rewrite queries_of_given in Hq by done.
    apply list_lookup_singleton_Some in Hq as [_ ->]. done.
Qed.

Lemma fresh_id rs : ∀ seen,
  NoDup (url_of <$> rs) →
  (∀ u, u ∈ url_of <$> rs → u ∉ seen) →
  fresh seen rs = rs.
Proof.
  induction rs as [|r rs IH]; intros seen Hnd Hseen; simpl; [done|].
  rewrite fmap_cons in Hnd, Hseen. apply NoDup_cons in Hnd as [Hr Hnd].
  destruct (decide (url_of r ∈ seen)) as [Hin|_].
  - exfalso. apply (Hseen (url_of r)); [apply list_elem_of_here|done].
  - f_equal. apply IH; [done|].
    intros u Hu [->%elem_of_singleton|Hs]%elem_of_union; [done|].
    apply (Hseen u); [by apply list_elem_of_further|done].
Qed.

(** X3. Removing duplicates a second time changes nothing: on the list
    that [run] returns, the loop returns that same list. *)
Theorem remove_duplicates_idempotent (ddgs : Ddgs) (query : option string)
    (max_results : nat) :
  ∃ out,
    run ddgs query max_results = Ok out
    ∧ remove_duplicates out ∅ [] = Ok out.
Proof.
  eexists. split; [apply run_fresh|].
  set (hits := accumulate ddgs max_results 0 (queries_of query) []).
  rewrite WebSearchFacts.remove_duplicates_fresh.
  - simpl. f_equal. apply fresh_id; [apply WebSearchFacts.fresh_NoDup|].
    intros u _. apply not_elem_of_empty.
  - apply Forall_forall. intros r Hr.
    eapply elem_of_sublist in Hr; [|apply WebSearchFacts.fresh_sublist].
    pose proof (WebSearchFacts.accumulate_has_url ddgs max_results
                  (queries_of query) 0 [] (Forall_nil_2 _)) as Hall.
    rewrite Forall_forall in Hall. by apply Hall.
Qed.

End WebSearchMoreFacts.

(** ** ScraperAgent: the cap of ten hits, the fields and the order of the
    pages *)

Module ScraperMoreFacts.
Import Scraper ScraperSpec ScraperMoreSpec.

Lemma scrape_item_first_ten http i item :
  i < 10 → scrape_item (first_ten http) i item = scrape_item http i item.
Proof.
  intros Hi. unfold scrape_item, _scrape_url, first_ten.
  by rewrite decide_True.
Qed.

Lemma run_at_most_ten http urls : length (run http urls) ≤ 10.
Proof.
  rewrite ScraperFacts.run_concat.
  etrans; [apply ListFacts.concat_imap_length, ScraperFacts.scrape_item_length|].
  rewrite length_take. lia.
Qed.

(** X4. Only the first ten hits are looked at: the pages are those of the
    first ten hits, they do not depend on what a fetch after the tenth hit
    would answer, and there are at most ten of them. *)
Theorem only_first_ten_hits_are_fetched (http : Http)
    (urls : list (gmap string string)) :
  run http urls = run http (take 10 urls)
  ∧ run http urls = run (first_ten http) urls
  ∧ length (run http urls) ≤ 10.
Proof.
  split_and!.
  - unfold run. by rewrite take_take.
  - rewrite !ScraperFacts.run_concat. f_equal. apply imap_ext.
    intros i item Hi. symmetry. apply scrape_item_first_ten.
    apply lookup_lt_Some in Hi. rewrite length_take in Hi. lia.
  - apply run_at_most_ten.
Qed.

Lemma page_of_content item url content :
  page_of item url content !! "content" = Some content.
Proof. unfold page_of. by simplify_map_eq. Qed.

Lemma page_of_dom item url content : dom (page_of item url content) = PAGE_KEYS.
Proof.
  unfold page_of, PAGE_KEYS. rewrite !dom_insert_L, dom_empty_L. set_solver.
Qed.

Lemma scrape_items_sublist http items : ∀ i,
  sublist
    (WebSearchSpec.url_of <$> concat (imap (λ j, scrape_item http (i + j)) items))
    (WebSearchSpec.url_of <$> items).
Proof.
  induction items as [|item rest IH]; intros i; simpl; [done|].
  rewrite fmap_app.
  assert (imap ((λ j, scrape_item http (i + j)) ∘ S) rest
          = imap (λ j, scrape_item http (S i + j)) rest) as ->.
  { apply imap_ext. intros j x _. simpl. f_equal. lia. }
  specialize (IH (S i)).
  destruct (scrape_item http (i + 0) item) as [|page pages] eqn:Hitem.
  - simpl. by apply sublist_cons.
  - pose proof (ScraperFacts.scrape_item_length http (i + 0) item) as Hlen.
    rewrite Hitem in Hlen. destruct pages; [|simpl in Hlen; lia].
    assert (page ∈ scrape_item http (i + 0) item) as Hin
      by (rewrite Hitem; apply list_elem_of_here).
    apply ScraperFacts.scrape_item_inv in Hin as (text & _ & _ & _ & ->).
    simpl. unfold WebSearchSpec.url_of at 1. unfold page_of, Py.dict_get.
    rewrite lookup_insert_eq. simpl. by apply sublist_skip.
Qed.

(** X5. Every page has exactly the four keys [url], [title], [snippet] and
    [content]; it comes from one of the first ten hits, whose url, which is
    not empty, whose title and whose snippet it carries (the empty string
    for a title or a snippet that the hit lacks). The urls of the pages
    are, in the same order, urls of the hits. *)
Theorem pages_keep_hit_fields (http : Http) (urls : list (gmap string string)) :
  Forall (λ page,
      dom page = PAGE_KEYS
      ∧ ∃ i item,
          take 10 urls !! i = Some item
          ∧ Py.dict_get item "url" "" ≠ ""
          ∧ page !! "url" = Some (Py.dict_get item "url" "")
          ∧ page !! "title" = Some (Py.dict_get item "title" "")
          ∧ page !! "snippet" = Some (Py.dict_get item "snippet" ""))
    (run http urls)
  ∧ sublist (WebSearchSpec.url_of <$> run http urls)
      (WebSearchSpec.url_of <$> urls).
Proof.
  split.
  - apply Forall_forall. intros page.
    rewrite ScraperFacts.run_concat.
    intros (i & item & Hi & Hpage)%ListFacts.elem_of_concat_imap.
    apply ScraperFacts.scrape_item_inv in Hpage as (text & Hurl & _ & _ & ->).
    split; [apply page_of_dom|]. exists i, item.
    unfold page_of. split_and!; try done; by simplify_map_eq.
  - rewrite ScraperFacts.run_concat.
    etrans; [apply (scrape_items_sublist http (take 10 urls) 0)|].
    apply fmap_sublist, sublist_take.
Qed.

End ScraperMoreFacts.

(** ** ExtractionAgent: what each strategy drops and fills in *)

Module ExtractionMoreFacts.
Import Extraction ExtractionSpec.

Lemma extract_item_nil llm i item :
  extract_item llm i item = [] ↔
  Py.dict_get item "content" "" = ""
  ∨ ∃ e, llm i (Py.slice_to 3000 (Py.dict_get item "content" "")) = Raise e.
Proof.
  unfold extract_item.
  destruct (Py.falsy _) eqn:Hcontent.
  - apply PyFacts.falsy_true in Hcontent. by split; [left|].
  - apply PyFacts.falsy_false in Hcontent.
    destruct (llm i _) as [answer|e].
    + split; [done|]. by intros [?|[? ?]].
    + split; [|done]. intros _. right. by exists e.
Qed.

(** X6. With a language model, the jobs are those of the pages, one page
    after the other, each page giving at most one job; a page gives none
    exactly when its content is empty or absent, or when the call of the
    model for this page raises. *)
Theorem llm_drops_exactly_failed_pages (llm : Llm)
    (pages : list (gmap string string)) :
  run (Some llm) pages = concat (imap (extract_item llm) pages)
  ∧ ∀ i page,
      length (extract_item llm i page) ≤ 1
      ∧ (extract_item llm i page = [] ↔
         Py.dict_get page "content" "" = ""
         ∨ ∃ e, llm i (Py.slice_to 3000 (Py.dict_get page "content" "")) = Raise e).
Proof.
  split; [apply ExtractionFacts.run_llm|]. intros i page. split.
  - apply ExtractionFacts.extract_item_length.
  - apply extract_item_nil.
Qed.

(** X7. Whatever the strategy and the answers of the model, no job of the
    output has [apply_url] equal to [None]. *)
Theorem apply_url_is_always_set (llm : option Llm)
    (pages : list (gmap string string)) :
  Forall (λ job, ∃ u, apply_url job = Some u) (run llm pages).
Proof.
  apply Forall_forall. intros job Hjob. destruct llm as [f|].
  - rewrite ExtractionFacts.run_llm in Hjob.
    apply ListFacts.elem_of_concat_imap in Hjob as (i & page & _ & Hjob).
    apply ExtractionFacts.extract_item_inv in Hjob as (answer & _ & _ & ->).
    destruct (apply_url answer) as [u|] eqn:Hu; simpl.
    + destruct (Py.falsy u); simpl; eauto.
    + eauto.
  - rewrite ExtractionFacts.run_fallback in Hjob.
    apply list_elem_of_fmap in Hjob as (page & -> & _). simpl. eauto.
Qed.

Lemma startswith_slice_to n : ∀ s, Py.startswith (Py.slice_to n s) s = true.
Proof.
  induction n as [|n IH]; intros [|c s]; simpl; try done.
  by rewrite Ascii.eqb_refl.
Qed.

Lemma slice_to_min n : ∀ s,
  String.length (Py.slice_to n s) = n `min` String.length s.
Proof. induction n as [|n IH]; intros [|c s]; simpl; try done. by rewrite IH. Qed.

(** X8. Without a language model there is exactly one job per page, in
    the order of the pages, whatever the page holds; its location is
    ["India"] and its description is the snippet of the page cut to its
    first 200 characters: the prefix of the snippet that has 200
    characters, or the whole snippet when it has no more than 200. *)
Theorem fallback_one_job_per_page (pages : list (gmap string string)) :
  length (run None pages) = length pages
  ∧ ∀ i page,
      pages !! i = Some page →
      ∃ job d,
        run None pages !! i = Some job
        ∧ location job = "India"
        ∧ description job = Some d
        ∧ d = Py.slice_to 200 (Py.dict_get page "snippet" "")
        ∧ String.length d = 200 `min` String.length (Py.dict_get page "snippet" "")
        ∧ String.length d ≤ 200
        ∧ Py.startswith d (Py.dict_get page "snippet" "") = true
        ∧ (String.length (Py.dict_get page "snippet" "") ≤ 200 →
           d = Py.dict_get page "snippet" "").
Proof.
  rewrite ExtractionFacts.run_fallback. split; [apply length_fmap|].
  intros i page Hi. eexists _, _. rewrite list_lookup_fmap, Hi. simpl.
  split_and!; try done.
  - apply slice_to_min.
  - apply PyFacts.slice_to_length.
  - apply startswith_slice_to.
  - generalize (Py.dict_get page "snippet" ""). generalize 200.
    induction n as [|n IH]; intros [|c s]; simpl; try done; try lia.
    intros Hlen. f_equal. apply IH. lia.
Qed.

End ExtractionMoreFacts.

(** ** GeocodingAgent: coordinates and calls to the service *)

Module GeocodingMoreFacts.
Import Geocoding GeocodingSpec GeocodingMoreSpec.

Lemma job_geocoded_Raise unicode geocode i job e :
  job_geocoded unicode geocode i job = Raise e ↔
  (_geocode_location unicode geocode i (Extraction.location job)).1 = Raise e.
Proof.
  unfold job_geocoded.
  destruct (_geocode_location unicode geocode i _).1; simpl; [done|].
  split; by intros [= ->].
Qed.

Lemma job_geocoded_Ok unicode geocode i job g :
  job_geocoded unicode geocode i job = Ok g ↔
  ∃ coords,
    (_geocode_location unicode geocode i (Extraction.location job)).1 = Ok coords
    ∧ g = geocoded job coords.
Proof.
  unfold job_geocoded.
  destruct (_geocode_location unicode geocode i _).1 as [coords|e]; simpl.
  - split; [intros [= <-]; by exists coords|by intros (? & [= <-] & ->)].
  - split; [done|by intros (? & ? & _)].
Qed.

(** The loop, job by job: the batch and the effects when it returns; the
    job whose lookup raised and the effects up to it when it raises. *)
Lemma geocode_loop_spec unicode geocode jobs : ∀ i acc effects,
  match geocode_loop unicode geocode i jobs acc effects with
  | (Ok out, effs) =>
      ∃ batch,
        out = acc ++ batch
        ∧ imap (λ j, job_geocoded unicode geocode (i + j)) jobs = Ok <$> batch
        ∧ effs = effects
                 ++ concat (imap (λ j, job_effects unicode geocode (i + j)) jobs)
  | (Raise e, effs) =>
      ∃ k job,
        jobs !! k = Some job
        ∧ (_geocode_location unicode geocode (i + k) (Extraction.location job)).1
          = Raise e
        ∧ effs = effects
                 ++ concat (imap (λ j, job_effects unicode geocode (i + j))
                              (take (S k) jobs))
  end.
Proof.
  induction jobs as [|job rest IH]; intros i acc effects.
  - exists []. by rewrite !app_nil_r.
  - cbn [geocode_loop].
    destruct (_geocode_location unicode geocode i (Extraction.location job))
      as [[coords|e] effs] eqn:Hjob.
    + specialize (IH (S i) (acc ++ [geocoded job coords]) (effects ++ effs)).
      destruct (geocode_loop unicode geocode (S i) rest _ _) as [[out|e] effs'].
      * destruct IH as (batch & -> & Hbatch & ->).
        exists (geocoded job coords :: batch). split_and!.
        -- by rewrite <- app_assoc.
        -- cbn [imap fmap list_fmap]. f_equal.
           ++ unfold job_geocoded. by rewrite Nat.add_0_r, Hjob.
           ++ rewrite <- Hbatch. apply imap_ext. intros j x _. simpl.
              f_equal. lia.
        -- cbn [imap concat]. unfold job_effects at 2.
           rewrite Nat.add_0_r, Hjob, <- !app_assoc. simpl. do 3 f_equal.
           apply imap_ext. intros j x _. simpl. f_equal. lia.
      * destruct IH as (k & job' & Hk & Hraise & ->).
        exists (S k), job'. split_and!; [done|by rewrite Nat.add_succ_r|].
        cbn [take imap concat]. unfold job_effects at 2.
        rewrite Nat.add_0_r, Hjob, <- !app_assoc. simpl. do 3 f_equal.
        apply imap_ext. intros j x _. simpl. f_equal. lia.
    + exists 0, job. split_and!; [done|by rewrite Nat.add_0_r, Hjob|].
      cbn [take imap concat]. unfold job_effects.
      by rewrite Nat.add_0_r, Hjob, app_nil_r.
Qed.

Lemma geocoding_run_spec unicode geocode jobs :
  match run unicode geocode jobs with
  | (Ok batch, effs) =>
      imap (job_geocoded unicode geocode) jobs = Ok <$> batch
      ∧ effs = concat (imap (job_effects unicode geocode) jobs)
  | (Raise e, effs) =>
      ∃ k job,
        jobs !! k = Some job
        ∧ (_geocode_location unicode geocode k (Extraction.location job)).1
          = Raise e
        ∧ effs = concat (imap (job_effects unicode geocode) (take (S k) jobs))
  end.
Proof.
  unfold run. pose proof (geocode_loop_spec unicode geocode jobs 0 [] []) as H.
  destruct (geocode_loop unicode geocode 0 jobs [] []) as [[out|e] effs].
  - by destruct H as (batch & -> & ? & ->).
  - destruct H as (k & job & ? & ? & ->). by exists k, job.
Qed.

Lemma job_effects_cases unicode geocode i job :
  job_effects unicode geocode i job = []
  ∨ job_effects unicode geocode i job
    = [Sleep 1; Geocode (Extraction.location job +:+ ", India")].
Proof.
  unfold job_effects, _geocode_location.
  destruct (Py.falsy _); [by left|].
  destruct (cache_lookup _ _); [by left|].
  right. by destruct (geocode i _) as [| |[]|].
Qed.

Lemma job_no_lookup unicode geocode i job :
  needs_no_lookup unicode (Extraction.location job) →
  job_effects unicode geocode i job = []
  ∧ ∃ coords,
      (_geocode_location unicode geocode i (Extraction.location job)).1
      = Ok coords.
Proof.
  unfold job_effects, _geocode_location.
  intros [->|[coords ->]]; [by eauto|].
  destruct (Py.falsy _); by eauto.
Qed.

Lemma lookups_app effs1 effs2 :
  lookups (effs1 ++ effs2) = lookups effs1 + lookups effs2.
Proof. induction effs1 as [|[]]; simpl; lia. Qed.

Lemma lookups_concat_imap (f : nat → Extraction.ExtractedJob → list Effect) jobs :
  (∀ i job, lookups (f i job) ≤ 1) →
  lookups (concat (imap f jobs)) ≤ length jobs.
Proof.
  revert f. induction jobs as [|job rest IH]; intros f Hf; simpl; [lia|].
  rewrite lookups_app.
  pose proof (Hf 0 job). pose proof (IH (f ∘ S) (λ i y, Hf (S i) y)). lia.
Qed.

Lemma no_effects_concat_imap (f : nat → Extraction.ExtractedJob → list Effect) jobs :
  (∀ i job, jobs !! i = Some job → f i job = []) →
  concat (imap f jobs) = [].
Proof.
  revert f. induction jobs as [|job rest IH]; intros f Hf; simpl; [done|].
  rewrite (Hf 0 job) by done. simpl. apply IH. intros i y Hi. by apply (Hf (S i)).
Qed.

(** X9. The effects of a batch are those of its jobs, one job after the
    other, up to the last job if [run] returns and up to the job whose
    lookup raised an exception that is not caught if [run] raises; a job
    causes either nothing, or a sleep of one second followed by one lookup
    of its location followed by [", India"]: no lookup goes without its
    sleep, and there are at most as many lookups as jobs. A job whose
    location is empty or matches the city table causes nothing, so a batch
    of such jobs never reaches the service, and [run] returns on it. *)
Theorem lookups_are_throttled (unicode : Py.Unicode) (geocode : Nominatim)
    (jobs : list Extraction.ExtractedJob) :
  let effects := (run unicode geocode jobs).2 in
  match (run unicode geocode jobs).1 with
  | Ok _ => effects = concat (imap (job_effects unicode geocode) jobs)
  | Raise e =>
      ∃ k job,
        jobs !! k = Some job
        ∧ geocode k (Extraction.location job +:+ ", India") = OtherException e
        ∧ effects
          = concat (imap (job_effects unicode geocode) (take (S k) jobs))
  end
  ∧ (∀ i job,
       job_effects unicode geocode i job = []
       ∨ job_effects unicode geocode i job
         = [Sleep 1; Geocode (Extraction.location job +:+ ", India")])
  ∧ lookups effects ≤ length jobs
  ∧ (Forall (λ job, needs_no_lookup unicode (Extraction.location job)) jobs →
     effects = [] ∧ ∃ batch, (run unicode geocode jobs).1 = Ok batch).
Proof.
  intros effects. subst effects.
  assert (∀ i job, lookups (job_effects unicode geocode i job) ≤ 1) as Hone.
  { intros i job.
    destruct (job_effects_cases unicode geocode i job) as [-> | ->]; simpl; lia. }
  pose proof (geocoding_run_spec unicode geocode jobs) as Hrun.
  destruct (run unicode geocode jobs) as [[batch|e] effs]; simpl.
  - destruct Hrun as [_ ->]. split_and!.
    + done.
    + apply job_effects_cases.
    + by apply lookups_concat_imap.
    + intros Hall. split; [|by exists batch].
      apply no_effects_concat_imap. intros i job Hi.
      apply job_no_lookup. rewrite Forall_forall in Hall.
      apply Hall. by eapply list_elem_of_lookup_2.
  - destruct Hrun as (k & job & Hk & Hraise & ->). split_and!.
    + exists k, job. split_and!; try done.
      by apply GeocodingFacts.geocode_location_Raise in Hraise as (_ & _ & ?).
    + apply job_effects_cases.
    + etrans; [by apply lookups_concat_imap|]. rewrite length_take. lia.
    + intros Hall. exfalso. rewrite Forall_forall in Hall.
      destruct (job_no_lookup unicode geocode k job) as [_ [coords Hcoords]].
      { apply Hall. by eapply list_elem_of_lookup_2. }
      congruence.
Qed.

(** The sample batch: one lookup, for Timbuktu. *)
Example three_places_effects :
  (run Py.ascii_only service_down three_places).2
  = [Sleep 1; Geocode "Timbuktu, India"]
  ∧ (λ g, (lat g, lng g)) <$>
      output_or_empty (run Py.ascii_only service_down three_places).1
    = [(18.5204, 73.8567)%Q; (20.5937, 78.9629)%Q; (20.5937, 78.9629)%Q].
Proof. by vm_compute. Qed.

Lemma fmap_Ok_inj {A} (l1 l2 : list A) :
  (Ok <$> l1 : list (result A)) = Ok <$> l2 → l1 = l2.
Proof.
  revert l2. induction l1 as [|x l1 IH]; intros [|y l2]; simpl; try done.
  intros [= -> ?]. f_equal. by apply IH.
Qed.

(** X10. The coordinates of each geocoded job are those resolved for the
    location of that very job: [run] returns a batch exactly when that
    batch is, job by job, the job with the coordinates of its own
    location. Hence a job with an empty location is at the default center,
    and two jobs whose locations match the city table at the same entry
    are at the same place, whatever the service answers. *)
Theorem coordinates_come_from_own_location (unicode : Py.Unicode)
    (geocode : Nominatim) (jobs : list Extraction.ExtractedJob) :
  (∀ batch,
     (run unicode geocode jobs).1 = Ok batch ↔
     imap (job_geocoded unicode geocode) jobs = Ok <$> batch)
  ∧ (∀ i job g,
       job_geocoded unicode geocode i job = Ok g ↔
       (_geocode_location unicode geocode i (Extraction.location job)).1
       = Ok (lat g, lng g)
       ∧ extracted g = job)
  ∧ (∀ i job,
       Extraction.location job = "" →
       ∃ g,
         job_geocoded unicode geocode i job = Ok g
         ∧ (lat g, lng g) = DEFAULT_CENTER)
  ∧ (∀ i j job job' coords,
       Extraction.location job ≠ "" → Extraction.location job' ≠ "" →
       cache_lookup CITY_CACHE
         (Py.strip unicode (Py.lower unicode (Extraction.location job)))
       = Some coords →
       cache_lookup CITY_CACHE
         (Py.strip unicode (Py.lower unicode (Extraction.location job')))
       = Some coords →
       ∃ g g',
         job_geocoded unicode geocode i job = Ok g
         ∧ job_geocoded unicode geocode j job' = Ok g'
         ∧ lat g = lat g' ∧ lng g = lng g').
Proof.
  split_and!.
  - intros batch. pose proof (geocoding_run_spec unicode geocode jobs) as Hrun.
    destruct (run unicode geocode jobs) as [[out|e] effs]; simpl.
    + destruct Hrun as [Hout _]. rewrite Hout. split.
      * by intros [= ->].
      * by intros ->%fmap_Ok_inj.
    + split; [done|]. intros Hbatch.
      destruct Hrun as (k & job & Hk & Hraise & _).
      apply job_geocoded_Raise in Hraise.
      assert (imap (job_geocoded unicode geocode) jobs !! k = Some (Raise e)) as Hl
        by by rewrite list_lookup_imap, Hk; simpl; rewrite Hraise.
      rewrite Hbatch, list_lookup_fmap in Hl.
      by destruct (batch !! k).
  - intros i job g. rewrite job_geocoded_Ok. split.
    + intros (coords & Hcoords & ->). destruct coords. simpl.
      by rewrite GeocodingFacts.extracted_geocoded.
    + intros [Hcoords <-]. exists (lat g, lng g). split; [done|]. by destruct g.
  - intros i job Hloc. eexists. rewrite job_geocoded_Ok.
    split; [eexists; split; [|done]|].
    + unfold _geocode_location. by rewrite Hloc.
    + done.
  - intros i j job job' coords Hne Hne' Hc Hc'.
    apply PyFacts.falsy_false in Hne, Hne'.
    exists (geocoded job coords), (geocoded job' coords).
    split_and!; try done; apply job_geocoded_Ok; exists coords;
      (split; [|done]); unfold _geocode_location;
      by rewrite ?Hne, ?Hne', ?Hc, ?Hc'.
Qed.

End GeocodingMoreFacts.

(** ** IndexingAgent: identifiers, and vectors that survive a rollback *)

Module IndexingMoreFacts.
Import Indexing IndexingSpec IndexingMoreSpec.

Lemma Forall2_imap_same {A B C} (R : B → C → Prop) (f : nat → A → B)
    (g : nat → A → C) (l : list A) :
  (∀ i x, R (f i x) (g i x)) → Forall2 R (imap f l) (imap g l).
Proof.
  revert f g. induction l as [|x l IH]; intros f g HR; simpl.
  - constructor.
  - constructor; [apply HR|]. apply IH. intros i y. apply HR.
Qed.

Lemma same_job_record_row a w i job : same_job (job_record w i job) (job_row a w i job).
Proof. done. Qed.

Lemma fmap_imap_seq {A B C} (proj : B → C) (f : nat → A → B) (h : nat → C)
    (l : list A) :
  (∀ i x, proj (f i x) = h i) → proj <$> imap f l = h <$> seq 0 (length l).
Proof.
  intros Hf.
  assert (∀ k, proj <$> imap (λ j, f (k + j)) l = h <$> seq k (length l)) as Hk;
    [|apply (Hk 0)].
  induction l as [|x l IH]; intros k; simpl; [done|].
  rewrite Nat.add_0_r, Hf. f_equal. rewrite <- IH. f_equal.
  apply imap_ext. intros j y _. simpl. f_equal. lia.
Qed.

Lemma batch_records_ids w jobs :
  indexed_id <$> batch_records w jobs = uuid4 w <$> seq 0 (length jobs).
Proof. by apply fmap_imap_seq. Qed.

Lemma batch_rows_ids a w jobs :
  id <$> batch_rows a w jobs = uuid4 w <$> seq 0 (length jobs).
Proof. by apply fmap_imap_seq. Qed.

Lemma run_prefix a w rows jobs :
  ∃ k, k ≤ length jobs
       ∧ run a w rows jobs = take k (batch_records w jobs)
       ∧ (failure a w rows jobs = None → k = length jobs).
Proof.
  unfold run.
  destruct (IndexingFacts.run_state_ending a w rows jobs)
    as [_ _ _ _ ->|e _ _ _ _ ->|e k row Hk _ _ _ _ ->].
  - exists (length jobs). split_and!; try done.
    by rewrite take_ge by (rewrite IndexingFacts.batch_records_length; lia).
  - exists (length jobs). split_and!; try done.
    by rewrite take_ge by (rewrite IndexingFacts.batch_records_length; lia).
  - exists k. split_and!; try done. lia.
Qed.

(** X11. The records returned and the rows handed to the session go
    together: the [i]-th record has the identifier, title, company,
    location and coordinates of the [i]-th row, and its identifier is the
    [i]-th one drawn. The identifiers returned are therefore pairwise
    distinct as soon as the generator never repeats itself; and when nothing
    raised, they are exactly the identifiers of the rows the table has
    gained. *)
Theorem records_match_rows (a : IndexingAgent) (w : World)
    (rows : list JobPostingDB) (jobs : list Geocoding.GeocodedJob) :
  let records := run a w rows jobs in
  Forall2 same_job records (take (length records) (batch_rows a w jobs))
  ∧ indexed_id <$> records = uuid4 w <$> seq 0 (length records)
  ∧ ((∀ i j, uuid4 w i = uuid4 w j → i = j) → NoDup (indexed_id <$> records))
  ∧ (failure a w rows jobs = None →
     id <$> drop (length rows) (table (run_state a w rows jobs))
     = indexed_id <$> records).
Proof.
  intros records.
  destruct (run_prefix a w rows jobs) as (k & Hk & Hrun & Hok).
  fold records in Hrun.
  assert (length records = k) as Hlen.
  { rewrite Hrun, length_take, IndexingFacts.batch_records_length. lia. }
  assert (indexed_id <$> records = uuid4 w <$> seq 0 (length records)) as Hids.
  { rewrite Hlen, Hrun, fmap_take, batch_records_ids, <- fmap_take.
    f_equal. rewrite take_seq. f_equal. lia. }
  split_and!.
  - rewrite Hlen, Hrun. apply Forall2_take.
    apply Forall2_imap_same. intros i job. apply same_job_record_row.
  - done.
  - intros Hinj. rewrite Hids. apply NoDup_fmap_2; [|apply NoDup_seq].
    intros i j. apply Hinj.
  - intros Hnone. specialize (Hok Hnone). subst k.
    pose proof (IndexingFacts.run_state_ending a w rows jobs) as Hend.
    rewrite Hnone in Hend. inversion Hend as [_ _ _ Ht Hi| |].
    rewrite Ht, drop_app_length, batch_rows_ids, Hids, Hlen. done.
Qed.

Lemma embed_stored a i job_id job :
  vector_id <$> (embed a i job_id job).2 = option_list (embed a i job_id job).1.
Proof. unfold embed. by repeat case_match. Qed.

Lemma omap_added_embedding_snoc ops op :
  omap added_embedding (ops ++ [op])
  = omap added_embedding ops ++ option_list (added_embedding op).
Proof.
  rewrite omap_app. simpl. by destruct (added_embedding op).
Qed.

Lemma omap_added_adds (l : list JobPostingDB) :
  omap added_embedding (Add <$> l) = omap embedding_id l.
Proof.
  induction l as [|row l IH]; [done|].
  rewrite fmap_cons. change (Add row :: (Add <$> l)) with ([Add row] ++ (Add <$> l)).
  rewrite omap_app, IH. simpl. by destruct (embedding_id row).
Qed.

(** The vectors stored are those of the rows handed to the session. *)
Lemma index_loop_vectors a w jobs : ∀ i st,
  vector_id <$> vectors st = omap added_embedding (session_ops st) →
  vector_id <$> vectors (index_loop a w i jobs st).1
  = omap added_embedding (session_ops (index_loop a w i jobs st).1).
Proof.
  induction jobs as [|job rest IH]; intros i st Hst; simpl; [done|].
  pose proof (embed_stored a i (uuid4 w i) job) as Hembed.
  destruct (embed a i (uuid4 w i) job) as [embedding_id stored]. simpl in Hembed.
  destruct (db_add w i _) as [[]|e]; simpl.
  - apply IH. simpl.
    by rewrite fmap_app, omap_added_embedding_snoc, Hst, Hembed.
  - by rewrite fmap_app, omap_added_embedding_snoc, Hst, Hembed.
Qed.

Lemma run_state_vectors a w rows jobs :
  vector_id <$> vectors (run_state a w rows jobs)
  = omap added_embedding (session_ops (run_state a w rows jobs)).
Proof.
  unfold run_state, try_body.
  pose proof (index_loop_vectors a w jobs 0 (initial rows) eq_refl) as Hloop.
  destruct (index_loop a w 0 jobs (initial rows)) as [st [e|]]; simpl in *.
  - by rewrite !omap_added_embedding_snoc, !app_nil_r.
  - unfold commit. destruct (db_commit w (pending st)) as [[]|e]; simpl;
      by rewrite !omap_added_embedding_snoc, !app_nil_r.
Qed.

(** X12. The identifiers of the vectors stored in the index are, in order,
    the embedding ids of the rows handed to the session, whatever happens
    to the transaction afterwards: the rollback does not take the vectors
    back. When the adds succeed and the commit fails, the index holds the
    vectors of the whole batch while the table has gained no row. *)
Theorem vectors_survive_rollback (a : IndexingAgent) (w : World)
    (rows : list JobPostingDB) (jobs : list Geocoding.GeocodedJob) :
  let st := run_state a w rows jobs in
  vector_id <$> vectors st = omap added_embedding (session_ops st)
  ∧ (∀ e,
       (∀ k row, batch_rows a w jobs !! k = Some row → db_add w k row = Ok ()) →
       db_commit w (batch_rows a w jobs) = Raise e →
       vector_id <$> vectors st = omap embedding_id (batch_rows a w jobs)
       ∧ table st = rows).
Proof.
  intros st. split; [apply run_state_vectors|].
  intros e Hadds Hcommit. unfold st. rewrite run_state_vectors.
  destruct (IndexingFacts.run_state_ending a w rows jobs)
    as [_ Hc _ _ _|e' _ _ Hops Ht _|e' k row _ Hrow Hadd _ _ _].
  - congruence.
  - split; [|done]. rewrite Hops, omap_app. simpl. rewrite app_nil_r.
    apply omap_added_adds.
  - rewrite (Hadds k row Hrow) in Hadd. done.
Qed.

(** Two jobs embedded and stored, then a commit that fails. *)
Example vectors_without_rows :
  vector_id <$> vectors (run_state all_embedded disk_full []
                           [job "Developer"; job "Engineer"])
  = ["id-0"; "id-1"]
  ∧ table (run_state all_embedded disk_full [] [job "Developer"; job "Engineer"])
    = [].
Proof. by vm_compute. Qed.

Lemma nothing_stored_without_handles a w rows jobs :
  pinecone_index a = None ∨ embeddings a = None →
  vectors (run_state a w rows jobs) = []
  ∧ Forall (λ row, embedding_id row = None) (batch_rows a w jobs).
Proof.
  intros Hnone.
  assert (∀ i job, embed a i (uuid4 w i) job = (None, [])) as Hembed.
  { intros i job. unfold embed. destruct Hnone as [-> | ->]; [done|].
    by destruct (pinecone_index a). }
  assert (Forall (λ row, embedding_id row = None) (batch_rows a w jobs)) as Hrows.
  { apply Forall_forall. intros row Hrow.
    apply list_elem_of_lookup in Hrow as [i Hi]. unfold batch_rows in Hi.
    rewrite list_lookup_imap in Hi.
    destruct (jobs !! i) as [job|]; simplify_eq/=.
    unfold job_row. by rewrite Hembed. }
  split; [|done].
  pose proof (run_state_vectors a w rows jobs) as Hv.
  apply fmap_nil_inv with (f := vector_id). rewrite Hv.
  assert (∀ l : list JobPostingDB,
    Forall (λ row, embedding_id row = None) l → omap embedding_id l = []) as Hnil.
  { induction 1 as [|row l Hrow _ IH]; [done|].
    change (row :: l) with ([row] ++ l). rewrite omap_app, IH. simpl.
    by rewrite Hrow. }
  destruct (IndexingFacts.run_state_ending a w rows jobs)
    as [_ _ Hops _ _|e' _ _ Hops _ _|e' k row _ _ _ Hops _ _];
    rewrite Hops, omap_app, omap_added_adds; simpl; rewrite app_nil_r;
    apply Hnil; try done.
  by apply Forall_take.
Qed.

(** X13. Without a vector index or without an embedding client, nothing is
    stored in the index and every row has a null [embedding_id]. *)
Theorem no_index_no_embedding (a : IndexingAgent) (w : World)
    (rows : list JobPostingDB) (jobs : list Geocoding.GeocodedJob) :
  pinecone_index a = None ∨ embeddings a = None →
  vectors (run_state a w rows jobs) = []
  ∧ Forall (λ row, embedding_id row = None) (batch_rows a w jobs).
Proof. apply nothing_stored_without_handles. Qed.

Lemma no_index_no_embedding_witness :
  (pinecone_index no_vectors = None ∨ embeddings no_vectors = None)
  ∧ vectors (run_state no_vectors working_database [] three_jobs) = []
  ∧ Forall (λ row, embedding_id row = None)
      (batch_rows no_vectors working_database three_jobs).
Proof.
  split; [by left|].
  apply (no_index_no_embedding no_vectors working_database [] three_jobs).
  by left.
Defined.

End IndexingMoreFacts.

(** ** The orchestrator: the error slot, and the agents put together *)

Module PipelineMoreFacts.
Import Pipeline PipelineSpec PipelineMoreSpec.

Lemma tag_not_empty s c : stage_name s +:+ " error: " +:+ c ≠ "".
Proof. by destruct s. Qed.

Lemma tag_stage s c s' c' :
  stage_name s +:+ " error: " +:+ c = stage_name s' +:+ " error: " +:+ c' →
  s = s'.
Proof. destruct s, s'; intros Heq; try done; by simplify_eq/=. Qed.

(** The slot is empty, or holds the tag of the last stage that raised. *)
Lemma error_after_cases p st :
  (error_after p st = "" ∧ ∀ s, stage_failure p st s = None)
  ∨ ∃ s c,
      stage_failure p st s = Some c
      ∧ error_after p st = stage_name s +:+ " error: " +:+ c
      ∧ ∀ s', position s < position s' → stage_failure p st s' = None.
Proof.
  unfold error_after. cbn [fold_left].
  destruct (stage_failure p st Index) as [c5|] eqn:H5.
  { right. exists Index, c5. split_and!; try done.
    intros []; simpl; lia. }
  destruct (stage_failure p st Geocode) as [c4|] eqn:H4.
  { right. exists Geocode, c4. split_and!; try done.
    intros []; simpl; try lia; done. }
  destruct (stage_failure p st Extract) as [c3|] eqn:H3.
  { right. exists Extract, c3. split_and!; try done.
    intros []; simpl; try lia; done. }
  destruct (stage_failure p st Scrape) as [c2|] eqn:H2.
  { right. exists Scrape, c2. split_and!; try done.
    intros []; simpl; try lia; done. }
  destruct (stage_failure p st Search) as [c1|] eqn:H1.
  { right. exists Search, c1. split_and!; try done.
    intros []; simpl; try lia; done. }
  left. split; [done|]. by intros [].
Qed.

(** X14. The error slot of the state returned is empty exactly when no
    stage raised; otherwise it holds the tag of the last stage that
    raised, and the tag of a stage that raised before another one is
    lost. *)
Theorem error_slot_reflects_last_failure (p : JobDiscoveryPipeline)
    (q : option string) :
  ∃ st,
    run p q = Ok st
    ∧ (error st = "" ↔ ∀ s, stage_failure p st s = None)
    ∧ (error st = ""
       ∨ ∃ s c,
           stage_failure p st s = Some c
           ∧ error st = stage_name s +:+ " error: " +:+ c
           ∧ ∀ s', position s < position s' → stage_failure p st s' = None)
    ∧ (∀ s c s' c',
         stage_failure p st s = Some c →
         stage_failure p st s' = Some c' →
         position s < position s' →
         error st ≠ stage_name s +:+ " error: " +:+ c).
Proof.
  destruct (PipelineFacts.run_spec p q) as (st & Hrun & _ & _ & Herr).
  exists st. rewrite Herr. split; [done|].
  destruct (error_after_cases p st) as [[Hempty Hnone]|(s0 & c0 & Hs0 & Hlast & Hlater)].
  - split_and!.
    + by split.
    + by left.
    + intros s c s' c' Hs. by rewrite Hnone in Hs.
  - split_and!.
    + split.
      * rewrite Hlast. by intros ?%tag_not_empty.
      * intros Hnone. by rewrite Hnone in Hs0.
    + right. by exists s0, c0.
    + intros s c s' c' Hs Hs' Hpos Heq. rewrite Hlast in Heq.
      apply tag_stage in Heq as ->. rewrite (Hlater s' Hpos) in Hs'. done.
Qed.

(** Sample run: the search and the indexing both raise; only the indexing
    is reported. *)
Example two_failures_one_tag :
  ∃ st,
    run two_stages_fail None = Ok st
    ∧ error st = "Indexing error: database is locked".
Proof. eexists. split; by vm_compute. Qed.

Lemma scraped_pages_have_content http urls :
  Forall (λ page, Py.dict_get page "content" "" ≠ "") (Scraper.run http urls).
Proof.
  apply Forall_forall. intros page. rewrite ScraperFacts.run_concat.
  intros (i & item & _ & Hpage)%ListFacts.elem_of_concat_imap.
  apply ScraperFacts.scrape_item_inv in Hpage as (text & _ & _ & Htext & ->).
  unfold Py.dict_get at 1. rewrite ScraperMoreFacts.page_of_content.
  change 5000 with (S 4999). by apply PyFacts.slice_to_nonempty.
Qed.

(** X15. In every run of the pipeline over the agents of the repository:
    at most ten pages are scraped, hence at most ten jobs extracted,
    geocoded and indexed; every page reaching the extractor has content, so
    that with a language model a page is dropped only when the call of the
    model for it raises, and without one no page is dropped. The geocoder
    keeps every job, unless the lookup of one of the extracted jobs raises
    an exception that the geocoder does not catch: then the geocoded and
    the indexed jobs are empty and the error slot holds the tag of the
    geocoding stage with that exception. *)
Theorem run_of_the_agents (env : Environment) (q : option string) :
  ∃ st,
    run (make env) q = Ok st
    ∧ length (scraped_content st) ≤ 10
    ∧ length (extracted_jobs st) ≤ 10
    ∧ length (geocoded_jobs st) ≤ 10
    ∧ length (indexed_jobs st) ≤ 10
    ∧ Forall (λ page, Py.dict_get page "content" "" ≠ "") (scraped_content st)
    ∧ (stage_failure (make env) st Geocode = None →
       length (geocoded_jobs st) = length (extracted_jobs st))
    ∧ (∀ e,
         stage_failure (make env) st Geocode = Some e →
         geocoded_jobs st = []
         ∧ indexed_jobs st = []
         ∧ error st = "Geocoding error: " +:+ e
         ∧ ∃ i job,
             extracted_jobs st !! i = Some job
             ∧ geocode env i (Extraction.location job +:+ ", India")
               = Geocoding.OtherException e)
    ∧ ((∀ i job e,
          extracted_jobs st !! i = Some job →
          geocode env i (Extraction.location job +:+ ", India")
          ≠ Geocoding.OtherException e) →
       stage_failure (make env) st Geocode = None)
    ∧ (llm env = None → length (extracted_jobs st) = length (scraped_content st))
    ∧ (∀ f i page,
         llm env = Some f →
         scraped_content st !! i = Some page →
         (Extraction.extract_item f i page = [] ↔
          ∃ e, f i (Py.slice_to 3000 (Py.dict_get page "content" "")) = Raise e)).
Proof.
  destruct (PipelineFacts.run_spec (make env) q)
    as (st & Hrun & _ & (_ & H2 & H3 & H4 & H5) & Herr).
  simpl in H2, H3, H4, H5.
  exists st. split; [done|].
  assert (length (scraped_content st) ≤ 10) as Hs.
  { rewrite H2. apply ScraperMoreFacts.run_at_most_ten. }
  assert (length (extracted_jobs st) ≤ length (scraped_content st)) as He.
  { rewrite H3. apply ExtractionFacts.extraction_run_length. }
  assert (length (geocoded_jobs st) ≤ length (extracted_jobs st)) as Hg.
  { rewrite H4.
    destruct (Geocoding.run _ _ _).1 as [out|e] eqn:Hout; simpl; [|lia].
    by rewrite (GeocodingFacts.geocoding_run_length _ _ _ _ Hout). }
  assert (length (indexed_jobs st) ≤ length (geocoded_jobs st)) as Hi.
  { rewrite H5. apply IndexingFacts.indexing_run_length. }
  assert (Forall (λ page, Py.dict_get page "content" "" ≠ "") (scraped_content st))
    as Hcontent.
  { rewrite H2. apply scraped_pages_have_content. }
  split_and!; try done; try lia.
  - simpl. intros Hnone. rewrite H4.
    destruct (Geocoding.run _ _ _).1 as [out|e] eqn:Hout; [|done]. simpl.
    by rewrite (GeocodingFacts.geocoding_run_length _ _ _ _ Hout).
  - intros e Hfail.
    assert (geocoded_jobs st = []) as Hnil.
    { rewrite H4. simpl in Hfail. by apply PipelineFacts.raised_Some in Hfail. }
    split_and!.
    + done.
    + rewrite H5, Hnil. apply PipelineFacts.indexing_nil.
    + rewrite Herr. apply (PipelineFacts.error_after_last _ st Geocode e Hfail).
      by intros [] Hpos; simpl in Hpos; try lia.
    + simpl in Hfail.
      destruct (Geocoding.run _ _ _).1 as [out|e'] eqn:Hout; simplify_eq/=.
      apply GeocodingFacts.run_Raise in Hout as (k & job & Hk & _ & _ & Hraise).
      by exists k, job.
  - intros Hcaught. simpl.
    destruct (Geocoding.run _ _ _).1 as [out|e] eqn:Hout; [done|].
    apply GeocodingFacts.run_Raise in Hout as (k & job & Hk & _ & _ & Hraise).
    by destruct (Hcaught k job e Hk).
  - intros Hllm. rewrite H3, Hllm, ExtractionFacts.run_fallback.
    apply length_fmap.
  - intros f i page _ Hpage. rewrite ExtractionMoreFacts.extract_item_nil.
    rewrite Forall_forall in Hcontent.
    assert (Py.dict_get page "content" "" ≠ "") as Hc
      by (apply Hcontent; by eapply list_elem_of_lookup_2).
    split; [by intros [?|?]|by right].
Qed.

(** Sample run: a lookup raises an exception that the geocoder does not
    catch; the geocoding stage is reported and nothing is indexed. *)
Example run_lookup_raises :
  ∃ st,
    run (make lookup_raises_env) None = Ok st
    ∧ (Extraction.location <$> extracted_jobs st) = ["Timbuktu"; "Timbuktu"]
    ∧ geocoded_jobs st = []
    ∧ indexed_jobs st = []
    ∧ error st = "Geocoding error: lookup failed".
Proof. eexists. split; by vm_compute. Qed.

End PipelineMoreFacts.

(** ** The constructors of the agents *)

Module InitFacts.
Import Indexing IndexingSpec IndexingInit.

Lemma _init_pinecone_handles svc settings self :
  embeddings self = None →
  (pinecone_index (_init_pinecone svc settings self).1 = None
   ↔ embeddings (_init_pinecone svc settings self).1 = None).
Proof.
  intros Hself. unfold _init_pinecone.
  destruct (connect svc _) as [pc|]; [|by cbn; rewrite Hself].
  destruct (list_indexes_names pc) as [names|]; [|by cbn; rewrite Hself].
  destruct (decide (_ ∈ names)); cbn.
  - destruct (Index pc _); [|by cbn; rewrite Hself].
    destruct (OpenAIEmbeddings svc _); cbn; [done|by rewrite Hself].
  - destruct (create_index pc _ _ _); [|by cbn; rewrite Hself].
    destruct (Index pc _); [|by cbn; rewrite Hself].
    destruct (OpenAIEmbeddings svc _); cbn; [done|by rewrite Hself].
Qed.

Lemma _init_pinecone_create svc settings self name d m :
  CreateIndex name d m ∈ (_init_pinecone svc settings self).2 →
  name = Config.pinecone_index_name settings ∧ d = 1536 ∧ m = "cosine"
  ∧ ∃ pc names,
      connect svc (Config.pinecone_api_key settings) = Ok pc
      ∧ list_indexes_names pc = Ok names
      ∧ name ∉ names.
Proof.
  unfold _init_pinecone.
  destruct (connect svc _) as [pc|] eqn:Hc; cbn.
  2: { intros Hin. by apply list_elem_of_singleton in Hin. }
  destruct (list_indexes_names pc) as [names|] eqn:Hl; cbn.
  2: { rewrite !elem_of_cons, elem_of_nil. intros Hin. by destruct_or!. }
  destruct (decide (_ ∈ names)) as [Hin|Hnin]; cbn.
  - destruct (Index pc _); cbn; [destruct (OpenAIEmbeddings svc _); cbn|];
      rewrite !elem_of_cons, elem_of_nil; intros H; by destruct_or!.
  - assert (∀ calls,
      CreateIndex name d m ∈ calls →
      calls `sublist_of`
        [Connect (Config.pinecone_api_key settings); ListIndexes;
         CreateIndex (Config.pinecone_index_name settings) 1536 "cosine";
         OpenIndex (Config.pinecone_index_name settings);
         MakeEmbeddings (Config.openai_api_key settings)] →
      name = Config.pinecone_index_name settings ∧ d = 1536 ∧ m = "cosine"
      ∧ ∃ pc0 names,
          Ok pc = Ok pc0
          ∧ list_indexes_names pc0 = Ok names ∧ name ∉ names) as Hgen.
    { intros calls Hcalls Hsub. eapply elem_of_sublist in Hcalls; [|done].
      rewrite !elem_of_cons, elem_of_nil in Hcalls.
      destruct_or!; simplify_eq. split_and!; try done. by exists pc, names. }
    destruct (create_index pc _ _ _); cbn.
    + destruct (Index pc _); cbn; [destruct (OpenAIEmbeddings svc _); cbn|];
        intros H; apply (Hgen _ H); repeat first
          [done | apply sublist_skip | apply sublist_cons | apply sublist_nil].
    + intros H; apply (Hgen _ H); repeat first
          [done | apply sublist_skip | apply sublist_cons | apply sublist_nil].
Qed.

Lemma init_opens_configured_index svc settings name :
  OpenIndex name ∈ (__init__ svc settings).2 →
  name = Config.pinecone_index_name settings.
Proof.
  unfold __init__. destruct (_ || _); [by intros ?%elem_of_nil|].
  unfold _init_pinecone.
  destruct (connect svc _) as [pc|]; cbn.
  2: { intros Hin. by apply list_elem_of_singleton in Hin. }
  destruct (list_indexes_names pc) as [names|]; cbn.
  2: { rewrite !elem_of_cons, elem_of_nil. intros Hin. by destruct_or!. }
  destruct (decide (_ ∈ names)); cbn.
  - destruct (Index pc _); cbn; [destruct (OpenAIEmbeddings svc _); cbn|];
      rewrite !elem_of_cons, elem_of_nil; intros H; destruct_or!; by simplify_eq.
  - destruct (create_index pc _ _ _); cbn;
      [destruct (Index pc _); cbn; [destruct (OpenAIEmbeddings svc _); cbn|]|];
      rewrite !elem_of_cons, elem_of_nil; intros H; destruct_or!; by simplify_eq.
Qed.

(** X16. After the construction of the indexing agent the vector index and
    the embedding client are both set or both absent. When one of the two
    API keys is missing, both are absent and no service has been called.
    An index is created only under the configured name, with dimension 1536
    and the cosine metric, and only when the service did not list that
    name. An agent built with a key missing stores no vector and leaves the
    [embedding_id] of every row null. *)
Theorem init_sets_both_handles_or_none (svc : Services)
    (settings : Config.Settings) :
  let agent := (__init__ svc settings).1 in
  let calls := (__init__ svc settings).2 in
  (pinecone_index agent = None ↔ embeddings agent = None)
  ∧ (Config.pinecone_api_key settings = "" ∨ Config.openai_api_key settings = "" →
     pinecone_index agent = None ∧ embeddings agent = None ∧ calls = [])
  ∧ (∀ name d m,
       CreateIndex name d m ∈ calls →
       name = Config.pinecone_index_name settings ∧ d = 1536 ∧ m = "cosine"
       ∧ ∃ pc names,
           connect svc (Config.pinecone_api_key settings) = Ok pc
           ∧ list_indexes_names pc = Ok names
           ∧ name ∉ names)
  ∧ (Config.pinecone_api_key settings = "" ∨ Config.openai_api_key settings = "" →
     ∀ w rows jobs,
       vectors (run_state agent w rows jobs) = []
       ∧ Forall (λ row, embedding_id row = None) (batch_rows agent w jobs)).
Proof.
  intros agent calls. unfold agent, calls, __init__.
  assert (Config.pinecone_api_key settings = "" ∨ Config.openai_api_key settings = ""
          → Py.falsy (Config.pinecone_api_key settings)
            || Py.falsy (Config.openai_api_key settings) = true) as Hkeys.
  { intros [-> | ->]; [done|]. apply orb_true_r. }
  split_and!.
  - destruct (_ || _); [done|]. by apply _init_pinecone_handles.
  - intros Hmissing. by rewrite Hkeys.
  - destruct (_ || _); [by intros ? ? ? ?%elem_of_nil|].
    apply _init_pinecone_create.
  - intros Hmissing w rows jobs. rewrite Hkeys by done. simpl.
    apply IndexingMoreFacts.nothing_stored_without_handles. by left.
Qed.

End InitFacts.

(** ** The constructor of the extraction agent *)

Module ExtractionInitFacts.
Import Extraction ExtractionInit.

(** X24. The strategy of the extraction agent follows the OpenAI key.
    Without a key the constructor calls nothing and returns an agent
    without model, whose [run] gives one job per page; with a key the
    agent holds the client that [ChatOpenAI] built for that key with model
    "gpt-4o-mini" and temperature 0, and a failure of [ChatOpenAI] is not
    caught: the construction raises the same exception instead of falling
    back to the agent without model. *)
Lemma strategy_follows_the_key (chat_openai : ChatOpenAI)
    (settings : Config.Settings) :
  let key := Config.openai_api_key settings in
  match __init__ chat_openai settings with
  | Ok llm =>
      (llm = None ↔ key = "")
      ∧ (∀ f, llm = Some f → chat_openai "gpt-4o-mini" 0%Q key = Ok f)
      ∧ (key = "" → ∀ pages, length (run llm pages) = length pages)
  | Raise e => key ≠ "" ∧ chat_openai "gpt-4o-mini" 0%Q key = Raise e
  end
  ∧ (key = "" → ∀ other, __init__ other settings = __init__ chat_openai settings).
Proof.
  intros key. unfold __init__. fold key.
  destruct (Py.falsy key) eqn:Hkey.
  - apply PyFacts.falsy_true in Hkey. split_and!; try done.
    intros _ pages. by rewrite ExtractionFacts.run_fallback, length_fmap.
  - apply PyFacts.falsy_false in Hkey. split; [|done].
    destruct (chat_openai _ _ _) as [f|e]; simpl; [|done].
    split_and!; [by split|by intros ? [= <-]|done].
Qed.

End ExtractionInitFacts.

(** ** The vector store *)

Module VectorStoreFacts.
Import VectorStore VectorStoreSpec.

#[local] Arguments Py.slice_to : simpl never.

Lemma generate_embedding_cases self i text :
  (openai_client self = None ∧ generate_embedding self i text = (None, []))
  ∨ ∃ embedding,
      generate_embedding self i text
      = (embedding, [Embed EMBEDDING_MODEL (Py.slice_to (8 * 1000) text)]).
Proof.
  unfold generate_embedding. destruct (openai_client self) as [client|];
    [|by left].
  right. destruct (embeddings_create client i _ _); eauto.
Qed.

Lemma record_of_dom job_id embedding job :
  dom (metadata (record_of job_id embedding job)) = METADATA_KEYS.
Proof.
  unfold record_of, METADATA_KEYS. simpl.
  rewrite !dom_insert_L, dom_empty_L. set_solver.
Qed.

Lemma record_of_text job_id embedding job :
  metadata (record_of job_id embedding job) !! "text"
  = Some (VStr (Py.slice_to 1000 (or_empty (text job)))).
Proof. unfold record_of. simpl. by simplify_map_eq. Qed.

(** X17. [upsert_job] answers [True] exactly when it has handed one vector
    to the index and the index has accepted it. The vector carries the
    identifier given, a non-empty embedding of the first 8000 characters of
    the text of the job, and the seven metadata keys, with the text cut to
    1000 characters. Without an index nothing is called, not even the
    embedding service; with an embedding that fails or is empty, nothing is
    handed to the index. *)
Theorem upsert_job_reports_storage (self : VectorStore) (i : nat)
    (job_id : string) (job : JobPosting) :
  let stored := (upsert_job self i job_id job).1 in
  let calls := (upsert_job self i job_id job).2 in
  (index self = None → stored = false ∧ calls = [])
  ∧ upserts calls ≤ 1
  ∧ (stored = true ↔
     ∃ idx embedding,
       index self = Some idx
       ∧ embedding ≠ []
       ∧ (generate_embedding self i (text_to_embed job)).1 = Some embedding
       ∧ upsert idx i (record_of job_id embedding job) = Ok ()
       ∧ calls = [Embed EMBEDDING_MODEL (Py.slice_to (8 * 1000) (text_to_embed job));
                  Upsert (record_of job_id embedding job)])
  ∧ (no_embedding (generate_embedding self i (text_to_embed job)).1 = true →
     stored = false ∧ upserts calls = 0)
  ∧ (∀ v, Upsert v ∈ calls →
       vector_id v = job_id
       ∧ values v ≠ []
       ∧ dom (metadata v) = METADATA_KEYS
       ∧ ∃ t, metadata v !! "text" = Some (VStr t) ∧ String.length t ≤ 1000).
Proof.
  intros stored calls. unfold stored, calls, upsert_job.
  destruct (index self) as [idx|] eqn:Hidx; cbn.
  2: { split_and!; [done|lia| |done|by intros ? ?%elem_of_nil].
       split; [done|]. by intros (? & ? & ? & _). }
  destruct (generate_embedding_cases self i (text_to_embed job))
    as [[_ ->]|[embedding ->]]; cbn.
  { split_and!; [done|lia| |done|by intros ? ?%elem_of_nil].
    split; [done|]. by intros (? & ? & ? & ? & ? & _). }
  destruct embedding as [[|x xs]|]; cbn.
  - split_and!; [done|lia| |done|].
    + split; [done|]. intros (? & ? & ? & ? & ? & _). by simplify_eq.
    + intros v Hv. by apply list_elem_of_singleton in Hv.
  - assert (∀ v, Upsert v ∈ [Embed EMBEDDING_MODEL
                (Py.slice_to (8 * 1000) (text_to_embed job));
              Upsert (record_of job_id (x :: xs) job)] →
       vector_id v = job_id ∧ values v ≠ []
       ∧ dom (metadata v) = METADATA_KEYS
       ∧ ∃ t, metadata v !! "text" = Some (VStr t) ∧ String.length t ≤ 1000)
      as Hvec.
    { intros v Hv. rewrite elem_of_cons, list_elem_of_singleton in Hv.
      destruct Hv as [|Hv]; simplify_eq.
      split; [done|]. split; [done|]. split; [apply record_of_dom|].
      eexists. split; [apply record_of_text|apply PyFacts.slice_to_length]. }
    destruct (upsert idx i _) as [[]|e] eqn:Hupsert; cbn.
    + split_and!; [done|lia| |done|done].
      split; [|done]. intros _. by exists idx, (x :: xs).
    + split_and!; [done|lia| |done|done].
      split; [done|]. intros (idx' & emb & Hi & Hne & Hg & Hok & _).
      cbn in Hg. simplify_eq. congruence.
  - split_and!; [done|lia| |done|].
    + split; [done|]. intros (? & ? & ? & ? & ? & _). by simplify_eq.
    + intros v Hv. by apply list_elem_of_singleton in Hv.
Qed.

Lemma jobs_of_Ok matches : ∀ acc out,
  jobs_of matches acc = Ok out →
  ∃ jobs, out = acc ++ jobs ∧ Forall2 (λ m job, job_of m = Ok job) matches jobs.
Proof.
  induction matches as [|m rest IH]; intros acc out; simpl.
  - intros [= <-]. exists []. by rewrite app_nil_r.
  - destruct (job_of m) as [job|e] eqn:Hm; simpl; [|done].
    intros (jobs & -> & Hjobs)%IH. exists (job :: jobs).
    rewrite <- app_assoc. split; [done|]. by constructor.
Qed.

Lemma jobs_of_all matches : ∀ acc,
  Forall (λ m, is_Some (match_metadata m)) matches →
  ∃ jobs, jobs_of matches acc = Ok (acc ++ jobs) ∧ length jobs = length matches.
Proof.
  induction matches as [|m rest IH]; intros acc Hall; simpl.
  - exists []. by rewrite app_nil_r.
  - apply Forall_cons in Hall as [[md Hmd] Hall]. unfold job_of at 1.
    rewrite Hmd. simpl.
    destruct (IH (acc ++ [md ∪ <["id":=VStr (match_id m)]>
                              (<["score":=VFloat (score m)]> ∅)]) Hall)
      as (jobs & -> & Hlen).
    eexists (_ :: jobs). rewrite <- app_assoc. split; [done|]. simpl. by rewrite Hlen.
Qed.

Lemma jobs_of_none matches : ∀ acc,
  Exists (λ m, match_metadata m = None) matches →
  ∃ e, jobs_of matches acc = Raise e.
Proof.
  induction matches as [|m rest IH]; intros acc Hex; simpl.
  - by apply Exists_nil in Hex.
  - unfold job_of at 1. destruct (match_metadata m) as [md|] eqn:Hmd; simpl.
    + apply Exists_cons in Hex as [Hm|Hrest]; [congruence|]. by apply IH.
    + eauto.
Qed.

(** X18. [semantic_search] asks the index at most once, and exactly once
    when there is an index and the embedding of the query is not empty; it
    asks with the number of results and the filter it was given, an empty
    location counting as no filter, and with that embedding; it never
    upserts. Without an index it calls nothing and returns nothing. What it
    returns is either
    empty or one dict per match of the index, in the order of the matches;
    it is empty as soon as a single match comes without metadata, and has
    one dict per match when every match has metadata. *)
Theorem semantic_search_results (self : VectorStore) (i : nat)
    (query_text : string) (top_k : Z) (location_filter : option string) :
  let results := (semantic_search self i query_text top_k location_filter).1 in
  let calls := (semantic_search self i query_text top_k location_filter).2 in
  (index self = None → results = [] ∧ calls = [])
  ∧ (filter_of location_filter = None ↔
     location_filter = None ∨ location_filter = Some "")
  ∧ (∀ vector k f,
       Query vector k f ∈ calls →
       k = top_k ∧ f = filter_of location_filter ∧ vector ≠ []
       ∧ (generate_embedding self i query_text).1 = Some vector)
  ∧ queries calls ≤ 1
  ∧ (queries calls = 1 ↔
     is_Some (index self)
     ∧ no_embedding (generate_embedding self i query_text).1 = false)
  ∧ upserts calls = 0
  ∧ (results ≠ [] →
     ∃ idx embedding matches,
       index self = Some idx
       ∧ (generate_embedding self i query_text).1 = Some embedding
       ∧ query idx i embedding top_k (filter_of location_filter) = Ok matches
       ∧ Forall2 (λ m job, job_of m = Ok job) matches results)
  ∧ (∀ idx embedding matches,
       index self = Some idx →
       (generate_embedding self i query_text).1 = Some embedding →
       embedding ≠ [] →
       query idx i embedding top_k (filter_of location_filter) = Ok matches →
       (Forall (λ m, is_Some (match_metadata m)) matches →
        length results = length matches)
       ∧ (Exists (λ m, match_metadata m = None) matches → results = [])).
Proof.
  intros results calls. unfold results, calls, semantic_search.
  split_and!.
  - by intros ->.
  - unfold filter_of. destruct location_filter as [[|c s]|]; simpl; split;
      try done; auto. by intros [|].
  - destruct (index self) as [idx|]; [|by intros ? ? ? ?%elem_of_nil].
    destruct (generate_embedding_cases self i query_text)
      as [[_ ->]|[embedding ->]]; [by intros ? ? ? ?%elem_of_nil|].
    destruct embedding as [[|x xs]|]; cbn.
    + intros ? ? ? Hin. by apply list_elem_of_singleton in Hin.
    + assert (∀ vector k f,
        Query vector k f ∈ [Embed EMBEDDING_MODEL (Py.slice_to (8 * 1000) query_text);
                            Query (x :: xs) top_k (filter_of location_filter)] →
        k = top_k ∧ f = filter_of location_filter ∧ vector ≠ []
        ∧ Some (x :: xs) = Some vector) as Hq.
      { intros vector k f Hin.
        rewrite elem_of_cons, list_elem_of_singleton in Hin.
        destruct Hin as [|Hin]; by simplify_eq. }
      by destruct (rbind _ _).
    + intros ? ? ? Hin. by apply list_elem_of_singleton in Hin.
  - destruct (index self) as [idx|]; [|simpl; lia].
    destruct (generate_embedding_cases self i query_text)
      as [[_ ->]|[embedding ->]]; [simpl; lia|].
    destruct embedding as [[|x xs]|]; cbn; try lia.
    destruct (rbind _ _); cbn; lia.
  - destruct (index self) as [idx|];
      [|simpl; split; [done|by intros [[? [=]] _]]].
    destruct (generate_embedding_cases self i query_text)
      as [[_ ->]|[embedding ->]]; [simpl; split; [done|by intros [_ ?]]|].
    destruct embedding as [[|x xs]|]; cbn;
      try (split; [done|by intros [_ ?]]).
    destruct (rbind _ _); cbn; (split; [by eauto|done]).
  - destruct (index self) as [idx|]; [|done].
    destruct (generate_embedding_cases self i query_text)
      as [[_ ->]|[embedding ->]]; [done|].
    destruct embedding as [[|x xs]|]; cbn; try done.
    by destruct (rbind _ _).
  - destruct (index self) as [idx|]; [|done].
    destruct (generate_embedding self i query_text) as [[[|x xs]|] gcalls];
      cbn; try done.
    destruct (query idx i (x :: xs) top_k (filter_of location_filter))
      as [matches|e] eqn:Hquery; cbn; [|done].
    destruct (jobs_of matches []) as [jobs|e] eqn:Hjobs; cbn; [|done].
    intros _. apply jobs_of_Ok in Hjobs as (jobs' & -> & Hall).
    by exists idx, (x :: xs), matches.
  - intros idx embedding matches -> Hgen Hne Hquery.
    destruct (generate_embedding self i query_text) as [[[|x xs]|] gcalls];
      cbn in *; simplify_eq.
    rewrite Hquery. cbn. split.
    + intros Hall. destruct (jobs_of_all matches [] Hall) as (jobs & -> & Hlen).
      done.
    + intros Hex. by destruct (jobs_of_none matches [] Hex) as [e ->].
Qed.

(** The sample store: the second match has no metadata, and the first one
    is lost with it. *)
Example one_bad_match_empties_the_results :
  (semantic_search sample_store 0 "developer" 10 None).1 = []
  ∧ queries (semantic_search sample_store 0 "developer" 10 None).2 = 1
  ∧ upserts (upsert_job sample_store 0 "job-1" sample_posting).2 = 1.
Proof. by vm_compute. Qed.

Lemma job_of_lookup m md k :
  match_metadata m = Some md →
  ∃ job,
    job_of m = Ok job
    ∧ job !! k
      = match md !! k with
        | Some v => Some v
        | None =>
            if decide (k = "id") then Some (VStr (match_id m))
            else if decide (k = "score") then Some (VFloat (score m))
            else None
        end.
Proof.
  intros Hmd. unfold job_of. rewrite Hmd. eexists. split; [done|].
  destruct (md !! k) as [v|] eqn:Hk.
  - by apply lookup_union_Some_l.
  - rewrite lookup_union_r by done.
    repeat case_decide; simplify_eq; by simplify_map_eq.
Qed.

(** X19. What is stored comes back: for a vector built by [upsert_job] and
    given back by the index as a match, the dict of the search result
    carries the identifier of the job under [id], the score of the match,
    the title, company, location, apply url and coordinates of the job,
    and its text cut to 1000 characters, and no other key. In general the
    entries of the metadata win: a match whose metadata has an [id] or a
    [score] of its own shows that one. *)
Theorem stored_job_comes_back (job_id : string) (embedding : list Q)
    (job : JobPosting) (s : Q) :
  (∃ result,
     job_of (match_of (record_of job_id embedding job) s) = Ok result
     ∧ dom result = METADATA_KEYS ∪ {[ "id"; "score" ]}
     ∧ result !! "id" = Some (VStr job_id)
     ∧ result !! "score" = Some (VFloat s)
     ∧ result !! "job_title" = Some (VStr (job_title job))
     ∧ result !! "company" = Some (VStr (company job))
     ∧ result !! "location" = Some (VStr (location job))
     ∧ result !! "apply_url" = Some (VStr (apply_url job))
     ∧ result !! "lat" = Some (VFloat (lat job))
     ∧ result !! "lng" = Some (VFloat (lng job))
     ∧ result !! "text" = Some (VStr (Py.slice_to 1000 (or_empty (text job)))))
  ∧ (∀ m md k v result,
       match_metadata m = Some md → md !! k = Some v →
       job_of m = Ok result → result !! k = Some v).
Proof.
  split.
  - eexists. split; [done|]. split_and!.
    + rewrite dom_union_L, record_of_dom, !dom_insert_L, dom_empty_L. set_solver.
    + by rewrite lookup_union_r.
    + by rewrite lookup_union_r.
    + by apply lookup_union_Some_l.
    + by apply lookup_union_Some_l.
    + by apply lookup_union_Some_l.
    + apply lookup_union_Some_l. unfold record_of, str_or_empty. simpl.
      simplify_map_eq. by destruct (apply_url job).
    + by apply lookup_union_Some_l.
    + by apply lookup_union_Some_l.
    + apply lookup_union_Some_l, record_of_text.
  - intros m md k v result Hmd Hk Hjob.
    destruct (job_of_lookup m md k Hmd) as (job' & Hjob' & Hlookup).
    rewrite Hk in Hlookup. congruence.
Qed.

Lemma _initialize_cases svc settings :
  let vs := (__init__ svc settings).1 in
  let calls := (__init__ svc settings).2 in
  (is_Some (index vs) → is_Some (openai_client vs))
  ∧ calls `sublist_of`
      [MakeOpenAI (Config.openai_api_key settings);
       MakePinecone (Config.pinecone_api_key settings);
       ListIndexes;
       CreateIndex INDEX_NAME EMBEDDING_DIMENSION "cosine" "aws" "us-east-1";
       OpenIndex INDEX_NAME].
Proof.
  unfold __init__, _initialize.
  destruct (Py.falsy (Config.openai_api_key settings));
    [split; [by intros [? ?]|apply sublist_nil_l]|].
  destruct (Py.falsy (Config.pinecone_api_key settings));
    [split; [by intros [? ?]|apply sublist_nil_l]|].
  assert (∀ (l1 l2 : list InitCall), l1 `sublist_of` l2 → l1 `sublist_of` l2)
    as Hid by done.
  destruct (make_openai svc _) as [client|]; cbn.
  2: { split; [by intros [? ?]|]. by repeat first
         [apply sublist_nil_l | apply sublist_skip | apply sublist_cons]. }
  destruct (make_pinecone svc _) as [pc|]; cbn.
  2: { split; [by intros [? ?]|]. by repeat first
         [apply sublist_nil_l | apply sublist_skip | apply sublist_cons]. }
  destruct (list_indexes pc) as [existing|]; cbn.
  2: { split; [by intros [? ?]|]. by repeat first
         [apply sublist_nil_l | apply sublist_skip | apply sublist_cons]. }
  destruct (decide (INDEX_NAME ∈ existing)); cbn.
  - destruct (open_index pc _); cbn; (split; [by eauto|]);
      repeat first [done | apply sublist_nil_l | apply sublist_skip | apply sublist_cons].
  - destruct (create_index pc _ _ _ _ _); cbn;
      [destruct (open_index pc _); cbn|]; (split; [by eauto|]);
      repeat first [done | apply sublist_nil_l | apply sublist_skip | apply sublist_cons].
Qed.

Lemma __init___missing_key svc settings :
  Config.openai_api_key settings = "" ∨ Config.pinecone_api_key settings = "" →
  __init__ svc settings = ({| index := None; openai_client := None |}, []).
Proof.
  unfold __init__, _initialize. intros [-> | ->]; [done|].
  by destruct (Py.falsy _).
Qed.

(** X20. After the construction of the vector store, an index that is set
    comes with an embedding client that is set, so that with an index every
    search and every upsert does ask the embedding service. With one of the
    two API keys missing, neither is set and no service has been called;
    the store then stores nothing, finds nothing and reports that it is not
    initialized. The services are called in a fixed order, each at most
    once. *)
Theorem store_index_implies_client (svc : Services) (settings : Config.Settings) :
  let vs := (__init__ svc settings).1 in
  let calls := (__init__ svc settings).2 in
  (is_Some (index vs) → is_Some (openai_client vs))
  ∧ (is_Some (index vs) → ∀ i text, (generate_embedding vs i text).2 ≠ [])
  ∧ calls `sublist_of`
      [MakeOpenAI (Config.openai_api_key settings);
       MakePinecone (Config.pinecone_api_key settings);
       ListIndexes;
       CreateIndex INDEX_NAME EMBEDDING_DIMENSION "cosine" "aws" "us-east-1";
       OpenIndex INDEX_NAME]
  ∧ (Config.openai_api_key settings = "" ∨ Config.pinecone_api_key settings = "" →
     index vs = None ∧ openai_client vs = None ∧ calls = []
     ∧ (∀ i job_id job, upsert_job vs i job_id job = (false, []))
     ∧ (∀ i q top_k location, semantic_search vs i q top_k location = ([], []))
     ∧ get_index_stats vs = StatsError "Index not initialized").
Proof.
  intros vs calls.
  destruct (_initialize_cases svc settings) as [Hclient Hcalls].
  fold vs in Hclient. fold calls in Hcalls.
  split_and!; try done.
  - intros Hindex i text. destruct (Hclient Hindex) as [client Hc].
    unfold generate_embedding. rewrite Hc.
    by destruct (embeddings_create client i _ _).
  - intros Hmissing. unfold vs, calls.
    by rewrite (__init___missing_key svc settings Hmissing).
Qed.

(** X21. The vector store opens, and creates when it is missing, the index
    named ["india-jobs"], whatever index name the settings hold, while the
    indexing agent opens and creates the index named by the settings. The
    two agree on the default settings, and in general exactly when the
    settings name ["india-jobs"]. *)
Theorem store_and_agent_index_names (svc : Services)
    (svc' : IndexingInit.Services) (settings : Config.Settings) :
  (∀ name, OpenIndex name ∈ (__init__ svc settings).2 → name = "india-jobs")
  ∧ (∀ name d m c r,
       CreateIndex name d m c r ∈ (__init__ svc settings).2 →
       name = "india-jobs")
  ∧ (∀ name,
       IndexingInit.OpenIndex name ∈ (IndexingInit.__init__ svc' settings).2 →
       name = Config.pinecone_index_name settings)
  ∧ (∀ name d m,
       IndexingInit.CreateIndex name d m ∈ (IndexingInit.__init__ svc' settings).2 →
       name = Config.pinecone_index_name settings)
  ∧ Config.pinecone_index_name Config.defaults = INDEX_NAME.
Proof.
  destruct (_initialize_cases svc settings) as [_ Hcalls].
  split_and!.
  - intros name Hin. eapply elem_of_sublist in Hin; [|done].
    rewrite !elem_of_cons, elem_of_nil in Hin. destruct_or!; by simplify_eq.
  - intros name d m c r Hin. eapply elem_of_sublist in Hin; [|done].
    rewrite !elem_of_cons, elem_of_nil in Hin. destruct_or!; by simplify_eq.
  - intros name. apply InitFacts.init_opens_configured_index.
  - intros name d m Hin.
    unfold IndexingInit.__init__ in Hin. destruct (_ || _);
      [by apply elem_of_nil in Hin|].
    by apply InitFacts._init_pinecone_create in Hin as (-> & _).
  - done.
Qed.

(** X22. The vector store is built once: after a call of
    [get_vector_store] the module variable holds the store returned, and
    every later call returns that same store without calling any service,
    whatever the services and the settings have become, also when the
    first construction left the store without index. *)
Theorem vector_store_is_built_once (svc svc' : Services)
    (settings settings' : Config.Settings) (global : option VectorStore) :
  let '(vs, global', calls) := get_vector_store svc settings global in
  global' = Some vs
  ∧ get_vector_store svc' settings' global' = (vs, global', [])
  ∧ (global = None → (vs, calls) = __init__ svc settings)
  ∧ (∀ old, global = Some old → vs = old ∧ calls = []).
Proof.
  unfold get_vector_store. destruct global as [old|].
  - split_and!; try done. by intros ? [= ->].
  - destruct (__init__ svc settings) as [vs calls]. by split_and!.
Qed.

Lemma index_pins_spec self pins : ∀ i count calls,
  (index_pins self i pins count calls).1
  = count + length (filter (λ b, b = true) (imap (λ j, pin_stored self (i + j)) pins)).
Proof.
  induction pins as [|pin rest IH]; intros i count calls; simpl; [lia|].
  unfold pin_stored at 1. rewrite Nat.add_0_r.
  destruct (upsert_job self i (pin_id pin) (job_of_pin pin)) as [stored cs].
  rewrite IH. simpl.
  assert (imap ((λ j, pin_stored self (i + j)) ∘ S) rest
          = imap (λ j, pin_stored self (S i + j)) rest) as ->.
  { apply imap_ext. intros j x _. simpl. f_equal. lia. }
  destruct stored.
  - rewrite filter_cons_True by done. simpl. lia.
  - by rewrite filter_cons_False by done.
Qed.

Lemma index_pins_no_index self pins : ∀ i count calls,
  index self = None → index_pins self i pins count calls = (count, calls).
Proof.
  induction pins as [|pin rest IH]; intros i count calls Hnone; simpl; [done|].
  unfold upsert_job. rewrite Hnone. rewrite IH by done. by rewrite app_nil_r.
Qed.

(** X23. [index_sample_jobs] counts the pins stored: its result is the
    number of pins for which [upsert_job] answered [True], hence at most the
    number of pins; without an index it is 0 and nothing is called. *)
Theorem sample_jobs_count (self : VectorStore) (pins : list JobPin) :
  (index_sample_jobs self pins).1
  = length (filter (λ b, b = true) (imap (pin_stored self) pins))
  ∧ (index_sample_jobs self pins).1 ≤ length pins
  ∧ (index self = None → index_sample_jobs self pins = (0, [])).
Proof.
  unfold index_sample_jobs. rewrite index_pins_spec. simpl. split_and!.
  - done.
  - etrans; [apply length_filter|]. by rewrite length_imap.
  - intros Hnone. by apply index_pins_no_index.
Qed.

End VectorStoreFacts.
